(** * llama_bridge: the JNI completion bridge, embedded and verified

    Source: nativelib/src/main/cpp/llama_bridge.cpp.

    The bridge drives an inference engine (llama.cpp) that is not part of
    the repository.  The engine is therefore an interface ([Engine]): its
    types are abstract and each API function is a field.  The bridge code
    itself ([nativeLoadModel], [nativeCompletion], [nativeFree]) is
    translated statement by statement into a small monad that threads the
    engine context, records every engine call and log line in a trace, and
    supports the early [return toJStr(env, ...)] exits of the C++ code.

    Conventions.
    - [int]/[jint]/[uint32_t] values are [Z]; the 32-bit wrap-around of the
      additions, subtractions, negations and casts of the source is written
      out with [wrap_int] and [to_uint32].  For signed [int] this is the
      two's complement result of the target; C++ leaves signed overflow
      undefined, so a property that depends on a sum says that the sum is
      representable.
    - The prompt loop ends only when its index passes the token count or
      a decode fails, so it runs on fuel; a call that is still in the loop
      when the fuel is used up has the outcome [OutOfFuel].
    - [jfloat] values are IEEE-754 binary32 numbers, represented with the
      standard library's [spec_float]; the source only compares them.
    - [std::string] is [list byte].  A C string is the list of its bytes
      before the terminating zero, and a Java string crossing the JNI
      boundary is identified with the C string it is converted from or to
      ([GetStringUTFChars], [NewStringUTF]).  [toJStr] passes
      [s.c_str()] to [NewStringUTF], so the text a call returns is the
      [std::string] cut before its first zero byte ([c_str]).
    - A [LlamaHandle*] is [option LlamaHandle]: [None] is the null pointer;
      the three pointer members are options in the same way. *)

From Stdlib Require Import ZArith List Bool Lia.
From Stdlib Require Import Strings.Byte.
From Stdlib Require Import Floats.SpecFloat.
Import ListNotations.
Local Open Scope Z_scope.

(** ** Machine integers *)

Definition INT_MIN : Z := -2147483648.
Definition INT_MAX : Z := 2147483647.

(** Two's complement reduction to a signed 32-bit [int]. *)
Definition wrap_int (z : Z) : Z := (z + 2147483648) mod 4294967296 - 2147483648.

(** Reduction to [uint32_t]. *)
Definition to_uint32 (z : Z) : Z := z mod 4294967296.

Definition int_add (a b : Z) : Z := wrap_int (a + b).
Definition int_sub (a b : Z) : Z := wrap_int (a - b).
Definition int_neg (a : Z) : Z := wrap_int (- a).

Definition is_jint (z : Z) : Prop := INT_MIN <= z <= INT_MAX.

(** [std::max(a, b)] is [(a < b) ? b : a]; [std::min(a, b)] is
    [(b < a) ? b : a]. *)
Definition std_max (a b : Z) : Z := if a <? b then b else a.
Definition std_min (a b : Z) : Z := if b <? a then b else a.

(** ** Floats *)

Definition jfloat : Type := spec_float.

Definition f_zero : jfloat := S754_zero false.
Definition f_one : jfloat := S754_finite false 8388608 (-23).
(** [0.95f], the binary32 number nearest to 0.95: 15938355 * 2^-24. *)
Definition f_0_95 : jfloat := S754_finite false 15938355 (-24).

(** [std::max] and [std::clamp] on floats, by their comparisons. *)
Definition fmax (a b : jfloat) : jfloat := if SFltb a b then b else a.
Definition fclamp (v lo hi : jfloat) : jfloat :=
  if SFltb v lo then lo else if SFltb hi v then hi else v.

(** ** Strings, tokens, sampler stages *)

Definition std_string : Type := list byte.
Definition llama_token : Type := Z.

(** [s.c_str()] read as a C string: the bytes of [s] before the first
    zero byte. *)
Fixpoint c_str (s : std_string) : std_string :=
  match s with
  | [] => []
  | b :: rest => if Byte.eqb b x00 then [] else b :: c_str rest
  end.

(** Lines 57-59: [toJStr(env, s)] is [env->NewStringUTF(s.c_str())]. *)
Definition toJStr (s : std_string) : std_string := c_str s.

(** The sampler constructors the bridge calls, with their arguments. *)
Inductive sampler_stage : Type :=
| init_greedy
| init_top_p (p : jfloat) (min_keep : Z)
| init_temp (t : jfloat)
| init_dist (seed : Z).

(** The fields of [llama_context_params] that [nativeLoadModel] sets. *)
Record llama_context_params : Type := mkCParams {
  cp_n_ctx : Z;
  cp_n_batch : Z;
  cp_n_threads : Z;
  cp_no_perf : bool
}.

(** ** The engine interface

    One field per llama.cpp function the bridge calls.  Functions that
    mutate the context return the new context; functions that report a
    status return it next to the new state.  [llama_tokenize] takes a flag
    telling whether a destination buffer was passed and returns its status
    with the tokens it wrote; [llama_token_to_piece] returns its status with
    the bytes it wrote. *)
Record Engine : Type := mkEngine {
  llama_model : Type;
  llama_context : Type;
  llama_vocab : Type;
  llama_sampler : Type;
  (** [sysconf(_SC_NPROCESSORS_ONLN)] *)
  nprocessors_onln : Z;
  (** the constant [LLAMA_DEFAULT_SEED] of llama.h *)
  LLAMA_DEFAULT_SEED : Z;
  llama_model_load_from_file : std_string -> option llama_model;
  llama_model_get_vocab : llama_model -> option llama_vocab;
  llama_init_from_model : llama_model -> llama_context_params -> option llama_context;
  llama_memory_seq_rm : llama_context -> Z -> Z -> Z -> llama_context;
  llama_set_n_threads : llama_context -> Z -> Z -> llama_context;
  llama_tokenize :
    llama_vocab -> std_string -> Z -> bool -> Z -> bool -> bool -> Z * list llama_token;
  llama_n_batch : llama_context -> Z;
  llama_decode : llama_context -> list llama_token -> Z * llama_context;
  llama_sampler_chain_init : option llama_sampler;
  llama_sampler_chain_add : llama_sampler -> sampler_stage -> llama_sampler;
  llama_sampler_reset : llama_sampler -> llama_sampler;
  llama_sampler_sample : llama_sampler -> llama_context -> Z -> llama_token * llama_sampler;
  llama_sampler_accept : llama_sampler -> llama_token -> llama_sampler;
  llama_vocab_is_eog : llama_vocab -> llama_token -> bool;
  llama_token_to_piece : llama_vocab -> llama_token -> Z -> Z -> bool -> Z * std_string
}.

(** ** Log lines and the trace of a call *)

Inductive LogMsg : Type :=
| MsgModelPathEmpty
| MsgLoadFailed (path : std_string)
| MsgInitFailed
| MsgModelLoaded (n_ctx n_batch n_threads : Z)
| MsgInvalidHandle
| MsgEmptyPrompt
| MsgConfig (n_threads maxTokens : Z) (temp topP : jfloat) (seed : Z)
| MsgTokenizeNone
| MsgTokenizeFailed
| MsgOverflow (n_prompt n_predict n_ctx : Z)
| MsgPromptDecodeFailed
| MsgChainInitFailed
| MsgGenDecodeFailed (step : Z).

Inductive Event : Type :=
| LOGI (m : LogMsg)
| LOGW (m : LogMsg)
| LOGE (m : LogMsg)
| Call_backend_init
| Call_model_load (path : std_string)
| Call_init_from_model (cp : llama_context_params)
| Call_model_free
| Call_free
| Call_delete
| Call_memory_seq_rm (seq_id p0 p1 : Z)
| Call_set_n_threads (n n_batch : Z)
| Call_tokenize (n_tokens_max : Z)
| Call_n_batch
| Call_decode (batch : list llama_token) (status : Z)
| Call_chain_init
| Call_chain_add (st : sampler_stage)
| Call_sampler_reset
| Call_sample (tok : llama_token)
| Call_is_eog (tok : llama_token)
| Call_accept (tok : llama_token)
| Call_token_to_piece (tok : llama_token)
| Call_sampler_free.

Definition is_log (ev : Event) : bool :=
  match ev with
  | LOGI _ | LOGW _ | LOGE _ => true
  | _ => false
  end.

(** The engine calls of a trace, the log lines left out. *)
Definition calls (tr : list Event) : list Event :=
  filter (fun ev => negb (is_log ev)) tr.

(** The tokens drawn by [llama_sampler_sample], in order. *)
Definition samples (tr : list Event) : list llama_token :=
  flat_map (fun ev => match ev with Call_sample tok => [tok] | _ => [] end) tr.

(** The stages added to the sampler chain, in order. *)
Definition chain_stages (tr : list Event) : list sampler_stage :=
  flat_map (fun ev => match ev with Call_chain_add st => [st] | _ => [] end) tr.

(** The batches handed to [llama_decode] with their status, in order. *)
Definition decodes (tr : list Event) : list (list llama_token * Z) :=
  flat_map (fun ev => match ev with Call_decode b st => [(b, st)] | _ => [] end) tr.

(** The error lines of a trace. *)
Definition errors (tr : list Event) : list LogMsg :=
  flat_map (fun ev => match ev with LOGE m => [m] | _ => [] end) tr.

(** ** Control flow of a JNI call

    A computation runs over the engine context, yields the trace of what
    it did and either falls through with a value ([Go]), leaves the JNI
    function with [return toJStr(env, s)] ([Done s]), or is a loop that
    was not finished within the fuel it was given ([Spin]). *)

Inductive Flow (A : Type) : Type :=
| Go (a : A)
| Done (s : std_string)
| Spin.

Arguments Go {A} a.
Arguments Done {A} s.
Arguments Spin {A}.

(** What a call of a JNI function amounts to: it returned the Java string
    [s], or it was still in a loop when the fuel ran out. *)
Inductive Outcome : Type :=
| Returned (s : std_string)
| OutOfFuel.

(** ** The bridge *)

Section Bridge.

Context (E : Engine).

(** [struct LlamaHandle]. *)
Record LlamaHandle : Type := mkHandle {
  model : option (llama_model E);
  ctx : option (llama_context E);
  vocab : option (llama_vocab E);
  n_ctx : Z
}.

(** *** The monad of a JNI call *)

Definition M (A : Type) : Type :=
  llama_context E -> Flow A * llama_context E * list Event.

Definition pure {A} (a : A) : M A := fun c => (Go a, c, []).

Definition bind {A B} (m : M A) (k : A -> M B) : M B := fun c =>
  match m c with
  | (Go a, c1, t1) =>
      match k a c1 with
      | (f, c2, t2) => (f, c2, t1 ++ t2)
      end
  | (Done s, c1, t1) => (Done s, c1, t1)
  | (Spin, c1, t1) => (Spin, c1, t1)
  end.

Definition emit (ev : Event) : M unit := fun c => (Go tt, c, [ev]).
Definition exit_with {A} (s : std_string) : M A := fun c => (Done s, c, []).
Definition spin {A} : M A := fun c => (Spin, c, []).

Notation "x <- m ;; k" := (bind m (fun x => k))
  (at level 61, m at next level, right associativity).
Notation "m ;; k" := (bind m (fun _ => k))
  (at level 61, right associativity).

(** *** Engine calls, each leaving its event *)

Definition call_memory_seq_rm (seq_id p0 p1 : Z) : M unit := fun c =>
  (Go tt, llama_memory_seq_rm E c seq_id p0 p1, [Call_memory_seq_rm seq_id p0 p1]).

Definition call_set_n_threads (n nb : Z) : M unit := fun c =>
  (Go tt, llama_set_n_threads E c n nb, [Call_set_n_threads n nb]).

Definition call_tokenize (v : llama_vocab E) (text : std_string) (text_len : Z)
    (buffer : bool) (n_tokens_max : Z) : M (Z * list llama_token) := fun c =>
  (Go (llama_tokenize E v text text_len buffer n_tokens_max true true), c,
   [Call_tokenize n_tokens_max]).

Definition call_n_batch : M Z := fun c =>
  (Go (llama_n_batch E c), c, [Call_n_batch]).

Definition call_decode (batch : list llama_token) : M Z := fun c =>
  (Go (fst (llama_decode E c batch)), snd (llama_decode E c batch),
   [Call_decode batch (fst (llama_decode E c batch))]).

Definition call_sample (smpl : llama_sampler E) : M (llama_token * llama_sampler E) :=
  fun c =>
  (Go (llama_sampler_sample E smpl c (-1)), c,
   [Call_sample (fst (llama_sampler_sample E smpl c (-1)))]).

Definition call_is_eog (v : llama_vocab E) (tok : llama_token) : M bool := fun c =>
  (Go (llama_vocab_is_eog E v tok), c, [Call_is_eog tok]).

Definition call_token_to_piece (v : llama_vocab E) (tok : llama_token) (size : Z)
    : M (Z * std_string) := fun c =>
  (Go (llama_token_to_piece E v tok size 0 true), c, [Call_token_to_piece tok]).

(** *** nativeLoadModel *)

(** Lines 99-103: the context parameters.  [std::min<uint32_t>] compares
    its arguments as [uint32_t]. *)
Definition load_context_params (jNCtx : Z) : llama_context_params :=
  let n := if jNCtx >? 0 then to_uint32 jNCtx else 2048 in
  {| cp_n_ctx := n;
     cp_n_batch := std_min 512 n;
     cp_n_threads := std_max 2 (wrap_int (nprocessors_onln E));
     cp_no_perf := true |}.

(** [cpath] is what [GetStringUTFChars] gave for [jModelPath] ([None] for a
    null pointer).  The result is the handle ([None] for 0) and the trace. *)
Definition nativeLoadModel (cpath : option std_string) (jNCtx : Z)
    : option LlamaHandle * list Event :=
  let path := match cpath with Some s => s | None => [] end in
  match path with
  | [] => (None, [LOGE MsgModelPathEmpty])
  | _ :: _ =>
      match llama_model_load_from_file E path with
      | None => (None, [Call_backend_init; Call_model_load path; LOGE (MsgLoadFailed path)])
      | Some mdl =>
          let cp := load_context_params jNCtx in
          match llama_init_from_model E mdl cp with
          | None =>
              (None, [Call_backend_init; Call_model_load path; Call_init_from_model cp;
                      LOGE MsgInitFailed; Call_model_free])
          | Some c =>
              let h := {| model := Some mdl; ctx := Some c;
                          vocab := llama_model_get_vocab E mdl;
                          n_ctx := wrap_int (cp_n_ctx cp) |} in
              (Some h, [Call_backend_init; Call_model_load path; Call_init_from_model cp;
                        LOGI (MsgModelLoaded (n_ctx h) (cp_n_batch cp) (cp_n_threads cp))])
          end
      end
  end.

(** *** nativeCompletion *)

(** Lines 160-162: [for (seq_id = 0; seq_id < 16; ++seq_id)]; [n] counts
    the iterations left. *)
Fixpoint clear_memory (n : nat) (seq_id : Z) : M unit :=
  match n with
  | O => pure tt
  | S n' => call_memory_seq_rm seq_id 0 (-1) ;; clear_memory n' (seq_id + 1)
  end.

(** Lines 167-169. *)
Definition resolve_threads (nThreads : Z) : Z :=
  if nThreads >? 0 then nThreads else std_max 2 (wrap_int (nprocessors_onln E)).

(** [std::vector<llama_token> toks(n_prompt)] after [llama_tokenize] wrote
    [written] at its start. *)
Definition fill_buffer (n_prompt : Z) (written : list llama_token) : list llama_token :=
  firstn (Z.to_nat n_prompt) (written ++ repeat 0 (Z.to_nat n_prompt - length written)).

(** [llama_batch_get_one(toks.data() + i, m)]: the [m] tokens from index [i]. *)
Definition llama_batch_get_one (toks : list llama_token) (i m : Z) : list llama_token :=
  firstn (Z.to_nat m) (skipn (Z.to_nat i) toks).

(** Lines 202-209: [for (i = 0; i < n_prompt; i += n_batch)].  The loop
    ends only if [i] reaches [n_prompt] or a decode fails, so it takes
    fuel: one unit per iteration. *)
Fixpoint decode_prompt (fuel : nat) (toks : list llama_token) (n_prompt n_batch i : Z)
    : M unit :=
  if i <? n_prompt then
    match fuel with
    | O => spin
    | S fuel' =>
        let m := std_min n_batch (int_sub n_prompt i) in
        st <- call_decode (llama_batch_get_one toks i m) ;;
        if negb (st =? 0) then
          emit (LOGE MsgPromptDecodeFailed) ;; exit_with []
        else decode_prompt fuel' toks n_prompt n_batch (int_add i n_batch)
    end
  else pure tt.

(** Lines 215-217. *)
Definition normalize_temp (temp : jfloat) : jfloat := fmax f_zero temp.

Definition normalize_top_p (topP : jfloat) : jfloat :=
  let P := fclamp topP f_zero f_one in
  if SFeqb P f_zero then f_0_95 else P.

(** Line 228. *)
Definition sampler_seed (seed : Z) : Z :=
  if seed >=? 0 then to_uint32 seed else LLAMA_DEFAULT_SEED E.

Definition call_chain_add (smpl : llama_sampler E) (st : sampler_stage)
    : M (llama_sampler E) := fun c =>
  (Go (llama_sampler_chain_add E smpl st), c, [Call_chain_add st]).

(** Lines 230-244: the stages, as they are added. *)
Definition add_stages (smpl : llama_sampler E) (T P : jfloat) (s : Z)
    : M (llama_sampler E) :=
  if SFeqb T f_zero then
    call_chain_add smpl init_greedy
  else
    smpl1 <- call_chain_add smpl (init_top_p P 1) ;;
    smpl2 <- call_chain_add smpl1 (init_temp T) ;;
    call_chain_add smpl2 (init_dist s).

(** Lines 219-248. *)
Definition build_sampler (temp topP : jfloat) (seed : Z) : M (llama_sampler E) :=
  let T := normalize_temp temp in
  let P := normalize_top_p topP in
  emit Call_chain_init ;;
  match llama_sampler_chain_init E with
  | None => emit (LOGE MsgChainInitFailed) ;; exit_with []
  | Some smpl =>
      let s := sampler_seed seed in
      smpl' <- add_stages smpl T P s ;;
      emit Call_sampler_reset ;;
      pure (llama_sampler_reset E smpl')
  end.

(** Lines 269-274: the bytes [output.append(buf, n)] adds for a token. *)
Definition piece_of (v : llama_vocab E) (tok : llama_token) : std_string :=
  let r := llama_token_to_piece E v tok 8192 0 true in
  if fst r >? 0 then firstn (Z.to_nat (fst r)) (snd r) else [].

(** Lines 253-286: [for (t = 0; t < predict; ++t)]; [n] counts the
    iterations left, [predict - t]. *)
Fixpoint generate (n : nat) (t : Z) (v : llama_vocab E) (smpl : llama_sampler E)
    (output : std_string) : M (llama_sampler E * std_string) :=
  match n with
  | O => pure (smpl, output)
  | S n' =>
      r <- call_sample smpl ;;
      let tok := fst r in
      eog <- call_is_eog v tok ;;
      if eog then pure (snd r, output)
      else
        emit (Call_accept tok) ;;
        let smpl' := llama_sampler_accept E (snd r) tok in
        p <- call_token_to_piece v tok 8192 ;;
        let output' := if fst p >? 0 then output ++ firstn (Z.to_nat (fst p)) (snd p)
                       else output in
        st <- call_decode [tok] ;;
        if negb (st =? 0) then
          emit (LOGE (MsgGenDecodeFailed t)) ;; pure (smpl', output')
        else generate n' (t + 1) v smpl' output'
  end.

(** Lines 215-294: the sampler chain, the generation loop and the return
    of the text. *)
Definition sample_text (v : llama_vocab E) (maxTokens : Z) (temp topP : jfloat) (seed : Z)
    : M std_string :=
  let predict := std_max 1 maxTokens in
  smpl <- build_sampler temp topP seed ;;
  g <- generate (Z.to_nat predict) 0 v smpl [] ;;
  emit Call_sampler_free ;;
  pure (snd g).

(** Lines 194-197. *)
Definition check_capacity (n_prompt predict h_n_ctx : Z) : M unit :=
  if int_add (int_add n_prompt predict) 8 >? h_n_ctx
  then emit (LOGW (MsgOverflow n_prompt predict h_n_ctx)) else pure tt.

(** Lines 160-294, after the handle and the prompt were checked. *)
Definition completion (fuel : nat) (v : llama_vocab E) (h_n_ctx : Z) (prompt : std_string)
    (nThreads maxTokens : Z) (temp topP : jfloat) (seed : Z) : M std_string :=
  clear_memory 16 0 ;;
  let nth := resolve_threads nThreads in
  call_set_n_threads nth nth ;;
  emit (LOGI (MsgConfig nth maxTokens temp topP seed)) ;;
  let len := wrap_int (Z.of_nat (length prompt)) in
  r0 <- call_tokenize v prompt len false 0 ;;
  let n_prompt := int_neg (fst r0) in
  if n_prompt <=? 0 then emit (LOGW MsgTokenizeNone) ;; exit_with []
  else
    r1 <- call_tokenize v prompt len true n_prompt ;;
    if fst r1 <? 0 then emit (LOGE MsgTokenizeFailed) ;; exit_with []
    else
      let toks := fill_buffer n_prompt (snd r1) in
      let predict := std_max 1 maxTokens in
      check_capacity n_prompt predict h_n_ctx ;;
      nb <- call_n_batch ;;
      let n_batch := wrap_int nb in
      decode_prompt fuel toks n_prompt n_batch 0 ;;
      sample_text v maxTokens temp topP seed.

(** A call of [nativeCompletion]: its outcome, the handle object
    afterwards and the trace. *)
Record Run : Type := mkRun {
  r_out : Outcome;
  r_handle : option LlamaHandle;
  r_trace : list Event
}.

Definition with_ctx (h : LlamaHandle) (c : llama_context E) : LlamaHandle :=
  {| model := model h; ctx := Some c; vocab := vocab h; n_ctx := n_ctx h |}.

(** The call seen from outside once [completion] has run on the context
    of [h]: every exit is a [return toJStr(env, s)]. *)
Definition finish (h : LlamaHandle) (x : Flow std_string * llama_context E * list Event)
    : Run :=
  match x with
  | (Go s, c', tr) => mkRun (Returned (toJStr s)) (Some (with_ctx h c')) tr
  | (Done s, c', tr) => mkRun (Returned (toJStr s)) (Some (with_ctx h c')) tr
  | (Spin, c', tr) => mkRun OutOfFuel (Some (with_ctx h c')) tr
  end.

(** [cprompt] is what [GetStringUTFChars] gave for [jPrompt]. *)
Definition nativeCompletion (fuel : nat) (jHandle : option LlamaHandle)
    (cprompt : option std_string) (nThreads maxTokens : Z) (temp topP : jfloat)
    (seed : Z) : Run :=
  match jHandle with
  | Some h =>
      match ctx h, model h, vocab h with
      | Some c, Some _, Some v =>
          let prompt := match cprompt with Some s => s | None => [] end in
          match prompt with
          | [] => mkRun (Returned (toJStr [])) jHandle [LOGW MsgEmptyPrompt]
          | _ :: _ =>
              finish h
                (completion fuel v (n_ctx h) prompt nThreads maxTokens temp topP seed c)
          end
      | _, _, _ => mkRun (Returned (toJStr [])) jHandle [LOGE MsgInvalidHandle]
      end
  | None => mkRun (Returned (toJStr [])) jHandle [LOGE MsgInvalidHandle]
  end.

(** *** nativeFree *)

(** The result is the handle object afterwards ([None]: there is none,
    or it was deleted) and the trace. *)
Definition nativeFree (jHandle : option LlamaHandle) : option LlamaHandle * list Event :=
  match jHandle with
  | None => (None, [])
  | Some h =>
      (None,
       (match ctx h with Some _ => [Call_free] | None => [] end) ++
       (match model h with Some _ => [Call_model_free] | None => [] end) ++
       [Call_delete])
  end.

End Bridge.

(** ** Shapes of traces *)

Section Shapes.

Context (E : Engine) (v : llama_vocab E).

(** One full iteration for [tok]: sampled, not end-of-generation, accepted,
    detokenized, decoded with status [st]. *)
Definition iteration (tok : llama_token) (st : Z) : list Event :=
  [Call_sample tok; Call_is_eog tok; Call_accept tok; Call_token_to_piece tok;
   Call_decode [tok] st].

(** The traces of the loop started at step [t] with [out] accumulated, and
    the output it ends with: the budget is used up, an end-of-generation
    token is drawn, a decode fails, or the loop goes round. *)
Inductive gen_trace : Z -> std_string -> list Event -> std_string -> Prop :=
| gen_budget t out :
    gen_trace t out [] out
| gen_eog t out tok :
    llama_vocab_is_eog E v tok = true ->
    gen_trace t out [Call_sample tok; Call_is_eog tok] out
| gen_failed t out tok st :
    llama_vocab_is_eog E v tok = false ->
    st <> 0 ->
    gen_trace t out (iteration tok st ++ [LOGE (MsgGenDecodeFailed t)])
              (out ++ piece_of E v tok)
| gen_more t out tok tr out' :
    llama_vocab_is_eog E v tok = false ->
    gen_trace (t + 1) (out ++ piece_of E v tok) tr out' ->
    gen_trace t out (iteration tok 0 ++ tr) out'.

(** The stages lines 230-244 add for the given arguments. *)
Definition sampler_stages (temp topP : jfloat) (seed : Z) : list sampler_stage :=
  if SFeqb (normalize_temp temp) f_zero then [init_greedy]
  else [init_top_p (normalize_top_p topP) 1; init_temp (normalize_temp temp);
        init_dist (sampler_seed E seed)].

(** The two ways [completion] ends: before the generation loop, with
    nothing sampled and the empty string returned (or the prompt loop out
    of fuel); or through the loop, after a setup [pre] that logged no error
    and whose decodes all succeeded. *)
Inductive completion_view (maxTokens : Z) (temp topP : jfloat) (seed : Z)
    : Flow std_string * llama_context E * list Event -> Prop :=
| view_early f c' tr :
    f = Done [] \/ f = Spin ->
    samples tr = [] ->
    chain_stages tr = [] ->
    completion_view maxTokens temp topP seed (f, c', tr)
| view_generated pre gtr out c' :
    samples pre = [] ->
    errors pre = [] ->
    chain_stages pre = sampler_stages temp topP seed ->
    Forall (fun d => snd d = 0) (decodes pre) ->
    gen_trace 0 [] gtr out ->
    (length (samples gtr) <= Z.to_nat (std_max 1 maxTokens))%nat ->
    completion_view maxTokens temp topP seed
      (Go out, c', pre ++ gtr ++ [Call_sampler_free]).

End Shapes.

(** ** Views used to state the properties *)

Section Views.

Context (E : Engine).

(** Lines 177-188 without their events: the prompt's tokens, when both
    calls of [llama_tokenize] succeed. *)
Definition prompt_tokens (v : llama_vocab E) (prompt : std_string)
    : option (list llama_token) :=
  let len := wrap_int (Z.of_nat (length prompt)) in
  let n_prompt := int_neg (fst (llama_tokenize E v prompt len false 0 true true)) in
  if n_prompt <=? 0 then None
  else
    let r1 := llama_tokenize E v prompt len true n_prompt true true in
    if fst r1 <? 0 then None else Some (fill_buffer n_prompt (snd r1)).

(** The context after lines 160-162, and after lines 160-170. *)
Definition cleared (c : llama_context E) : llama_context E :=
  snd (fst (clear_memory E 16 0 c)).

Definition prepared (c : llama_context E) (nThreads : Z) : llama_context E :=
  llama_set_n_threads E (cleared c) (resolve_threads E nThreads) (resolve_threads E nThreads).

(** The sequence ids of lines 160-162, and the events of lines 160-188
    when the prompt yields [n] tokens. *)
Definition reserved_seq_ids : list Z := map Z.of_nat (seq 0 16).

Definition clear_events : list Event :=
  map (fun s => Call_memory_seq_rm s 0 (-1)) reserved_seq_ids.

Definition setup_events (nThreads maxTokens : Z) (temp topP : jfloat) (seed n : Z)
    : list Event :=
  clear_events ++
  [Call_set_n_threads (resolve_threads E nThreads) (resolve_threads E nThreads);
   LOGI (MsgConfig (resolve_threads E nThreads) maxTokens temp topP seed);
   Call_tokenize 0; Call_tokenize n].

Definition with_n_ctx (h : LlamaHandle E) (n : Z) : LlamaHandle E :=
  {| model := model E h; ctx := ctx E h; vocab := vocab E h; n_ctx := n |}.

(** Consecutive chunks of [B] elements, the last one possibly shorter. *)
Fixpoint chunks_fuel {A} (fuel B : nat) (l : list A) : list (list A) :=
  match l with
  | [] => []
  | _ :: _ =>
      match fuel with
      | O => []
      | S fuel' => firstn B l :: chunks_fuel fuel' B (skipn B l)
      end
  end.

Definition chunks {A} (B : nat) (l : list A) : list (list A) :=
  chunks_fuel (length l) B l.

(** Decoding a list of chunks in order, stopping at the first failure the
    way lines 205-208 do. *)
Fixpoint eval_chunks (chs : list (list llama_token)) : M E unit :=
  match chs with
  | [] => pure E tt
  | ch :: rest =>
      bind E (call_decode E ch) (fun st =>
        if negb (st =? 0) then
          bind E (emit E (LOGE MsgPromptDecodeFailed)) (fun _ => exit_with E [])
        else eval_chunks rest)
  end.

(** Two results that agree on the control flow, on the context and on the
    events [keep] selects. *)
Definition agree {A} (keep : Event -> bool)
    (x y : Flow A * llama_context E * list Event) : Prop :=
  fst x = fst y /\ filter keep (snd x) = filter keep (snd y).

End Views.

Definition is_overflow_warning (ev : Event) : bool :=
  match ev with
  | LOGW (MsgOverflow _ _ _) => true
  | _ => false
  end.


(** ** A small engine to run the bridge on

    The context holds the tokens decoded so far and the batch capacity it
    was created with.  The tokenizer yields a begin marker (1) and one
    token per byte.  Decoding fails on a batch that holds the token of
    'x' (120).  The sampler draws the predecessor of the last decoded
    token; tokens up to 96 end the generation.  A token's piece is the
    byte of its number. *)
Module Toy.

Record context : Type := mkContext { kv : list llama_token; capacity : Z }.

Definition tokens_of (text : std_string) : list llama_token :=
  1 :: map (fun b => Z.of_N (Byte.to_N b)) text.

Definition tokenize (text : std_string) (n_tokens_max : Z) : Z * list llama_token :=
  let toks := tokens_of text in
  let n := Z.of_nat (length toks) in
  if n_tokens_max <? n then (- n, []) else (n, toks).

Definition decode (c : context) (batch : list llama_token) : Z * context :=
  if existsb (fun t => t =? 120) batch then (1, c)
  else (0, {| kv := kv c ++ batch; capacity := capacity c |}).

Definition to_piece (tok : llama_token) : Z * std_string :=
  match Byte.of_N (Z.to_N tok) with
  | Some b => (1, [b])
  | None => (0, [])
  end.

Definition engine : Engine :=
  {| llama_model := unit;
     llama_context := context;
     llama_vocab := unit;
     llama_sampler := list sampler_stage;
     nprocessors_onln := 4;
     LLAMA_DEFAULT_SEED := 4294967295;
     llama_model_load_from_file := fun _ => Some tt;
     llama_model_get_vocab := fun _ => Some tt;
     llama_init_from_model := fun _ cp => Some {| kv := []; capacity := cp_n_batch cp |};
     llama_memory_seq_rm := fun c _ _ _ => {| kv := []; capacity := capacity c |};
     llama_set_n_threads := fun c _ _ => c;
     llama_tokenize := fun _ text _ _ n_max _ _ => tokenize text n_max;
     llama_n_batch := capacity;
     llama_decode := decode;
     llama_sampler_chain_init := Some [];
     llama_sampler_chain_add := fun s st => s ++ [st];
     llama_sampler_reset := fun s => s;
     llama_sampler_sample := fun s c _ => (last (kv c) 0 - 1, s);
     llama_sampler_accept := fun s _ => s;
     llama_vocab_is_eog := fun _ tok => tok <=? 96;
     llama_token_to_piece := fun _ tok _ _ _ => to_piece tok |}.

(** A handle as [nativeLoadModel] makes it for a context window of
    [n] tokens ([jNCtx = n]), and the strings used below. *)
Definition handle (n : Z) : LlamaHandle engine :=
  let cp := load_context_params engine n in
  mkHandle engine (Some tt) (Some {| kv := []; capacity := cp_n_batch cp |}) (Some tt)
    (wrap_int (cp_n_ctx cp)).

Definition path : std_string := ["m"%byte].
Definition prompt_c : std_string := ["c"%byte].
Definition prompt_z : std_string := ["z"%byte].
Definition prompt_x : std_string := ["x"%byte].
Definition prompt_abcd : std_string := ["a"%byte; "b"%byte; "c"%byte; "d"%byte].

End Toy.

(** ** The anatomy of a call

    Further views of a trace, and the shapes the trace of [completion] can
    take, one per way out of the function. *)

(** The tokens handed to [llama_sampler_accept], in order. *)
Definition accepts (tr : list Event) : list llama_token :=
  flat_map (fun ev => match ev with Call_accept tok => [tok] | _ => [] end) tr.

Definition is_set_n_threads (ev : Event) : bool :=
  match ev with Call_set_n_threads _ _ => true | _ => false end.

Definition is_memory_seq_rm (ev : Event) : bool :=
  match ev with Call_memory_seq_rm _ _ _ => true | _ => false end.

Definition is_sampler_free (ev : Event) : bool :=
  match ev with Call_sampler_free => true | _ => false end.

Definition is_chain_init (ev : Event) : bool :=
  match ev with Call_chain_init => true | _ => false end.

Definition is_sampler_reset (ev : Event) : bool :=
  match ev with Call_sampler_reset => true | _ => false end.

(** A token that does not end the generation. *)
Definition not_eog (E : Engine) (v : llama_vocab E) (tok : llama_token) : bool :=
  negb (llama_vocab_is_eog E v tok).

(** A decode that succeeded. *)
Definition is_ok_decode (ev : Event) : bool :=
  match ev with Call_decode _ st => st =? 0 | _ => false end.

(** The events of one round of the generation loop. *)
Definition is_gen_event (ev : Event) : bool :=
  match ev with
  | Call_sample _ | Call_is_eog _ | Call_accept _ | Call_token_to_piece _
  | Call_decode _ _ | LOGE (MsgGenDecodeFailed _) => true
  | _ => false
  end.

Section Anatomy.

Context (E : Engine) (v : llama_vocab E).
Context (nThreads maxTokens : Z) (temp topP : jfloat) (seed h_n_ctx n : Z).

(** Lines 160-178: up to the first call of [llama_tokenize]. *)
Definition head_events : list Event :=
  clear_events ++
  [Call_set_n_threads (resolve_threads E nThreads) (resolve_threads E nThreads);
   LOGI (MsgConfig (resolve_threads E nThreads) maxTokens temp topP seed);
   Call_tokenize 0].

(** Lines 194-197: what the capacity check logs. *)
Definition capacity_events : list Event :=
  if int_add (int_add n (std_max 1 maxTokens)) 8 >? h_n_ctx
  then [LOGW (MsgOverflow n (std_max 1 maxTokens) h_n_ctx)] else [].

(** Lines 160-201, for a prompt of [n] tokens. *)
Definition body_events : list Event :=
  head_events ++ [Call_tokenize n] ++ capacity_events ++ [Call_n_batch].

(** The ways out of [completion], [n] being the token count the first
    [llama_tokenize] announced: no token, the second [llama_tokenize]
    failed, a prompt chunk failed to decode, the prompt loop was still
    running, the sampler chain could not be created, or the generation
    loop ran and the sampler was freed. *)
Inductive call_anatomy : Outcome -> list Event -> Prop :=
| an_no_token :
    n <= 0 ->
    call_anatomy (Returned []) (head_events ++ [LOGW MsgTokenizeNone])
| an_tokenize_failed :
    0 < n ->
    call_anatomy (Returned []) (head_events ++ [Call_tokenize n; LOGE MsgTokenizeFailed])
| an_prompt_failed ds b st :
    0 < n -> Forall (fun ev => is_ok_decode ev = true) ds -> st <> 0 ->
    call_anatomy (Returned [])
      (body_events ++ ds ++ [Call_decode b st; LOGE MsgPromptDecodeFailed])
| an_out_of_fuel ds :
    0 < n -> Forall (fun ev => is_ok_decode ev = true) ds ->
    call_anatomy OutOfFuel (body_events ++ ds)
| an_chain_failed ds :
    0 < n -> Forall (fun ev => is_ok_decode ev = true) ds ->
    llama_sampler_chain_init E = None ->
    call_anatomy (Returned [])
      (body_events ++ ds ++ [Call_chain_init; LOGE MsgChainInitFailed])
| an_generated ds gtr out :
    0 < n -> Forall (fun ev => is_ok_decode ev = true) ds ->
    llama_sampler_chain_init E <> None ->
    gen_trace E v 0 [] gtr out ->
    (length (samples gtr) <= Z.to_nat (std_max 1 maxTokens))%nat ->
    (length (samples gtr) = Z.to_nat (std_max 1 maxTokens) \/
     existsb (llama_vocab_is_eog E v) (samples gtr) = true \/
     errors gtr <> []) ->
    call_anatomy (Returned (toJStr out))
      (body_events ++ ds ++
       [Call_chain_init] ++ map Call_chain_add (sampler_stages E temp topP seed) ++
       [Call_sampler_reset] ++ gtr ++ [Call_sampler_free]).

End Anatomy.

(** Line 177: the token count the first [llama_tokenize] announces. *)
Definition announced_tokens (E : Engine) (v : llama_vocab E) (prompt : std_string) : Z :=
  int_neg (fst (llama_tokenize E v prompt (wrap_int (Z.of_nat (length prompt)))
                  false 0 true true)).

Definition outcome_of (f : Flow std_string) : Outcome :=
  match f with
  | Go s => Returned (toJStr s)
  | Done s => Returned (toJStr s)
  | Spin => OutOfFuel
  end.

(** ** An engine with a zero byte in a piece

    The small engine, except that only negative tokens end the
    generation, so that token 0, whose piece is the zero byte, is sampled
    and detokenized; decoding fails on a batch that holds [fail_on]. *)
Module ZeroByte.

Definition decode (fail_on : llama_token) (c : Toy.context) (batch : list llama_token)
    : Z * Toy.context :=
  if existsb (fun t => t =? fail_on) batch then (1, c)
  else (0, {| Toy.kv := Toy.kv c ++ batch; Toy.capacity := Toy.capacity c |}).

Definition engine (fail_on : llama_token) : Engine :=
  {| llama_model := unit;
     llama_context := Toy.context;
     llama_vocab := unit;
     llama_sampler := list sampler_stage;
     nprocessors_onln := 4;
     LLAMA_DEFAULT_SEED := 4294967295;
     llama_model_load_from_file := fun _ => Some tt;
     llama_model_get_vocab := fun _ => Some tt;
     llama_init_from_model := fun _ cp =>
       Some {| Toy.kv := []; Toy.capacity := cp_n_batch cp |};
     llama_memory_seq_rm := fun c _ _ _ => {| Toy.kv := []; Toy.capacity := Toy.capacity c |};
     llama_set_n_threads := fun c _ _ => c;
     llama_tokenize := fun _ text _ _ n_max _ _ => Toy.tokenize text n_max;
     llama_n_batch := Toy.capacity;
     llama_decode := decode fail_on;
     llama_sampler_chain_init := Some [];
     llama_sampler_chain_add := fun s st => s ++ [st];
     llama_sampler_reset := fun s => s;
     llama_sampler_sample := fun s c _ => (last (Toy.kv c) 0 - 1, s);
     llama_sampler_accept := fun s _ => s;
     llama_vocab_is_eog := fun _ tok => tok <? 0;
     llama_token_to_piece := fun _ tok _ _ _ => Toy.to_piece tok |}.

Definition handle (fail_on : llama_token) : LlamaHandle (engine fail_on) :=
  mkHandle (engine fail_on) (Some tt) (Some {| Toy.kv := []; Toy.capacity := 256 |})
    (Some tt) 256.

(** The prompt of the single byte 3: tokens 1 and 3. *)
Definition prompt : std_string := [x03].

End ZeroByte.

(** ** An engine whose tokenizer writes fewer tokens than it announced

    The small engine, except that the tokenizer announces three tokens
    for any text and, given room for them, writes the two tokens 1 and 99
    and returns 2. *)
Module ShortWrite.

Definition tokenize (n_tokens_max : Z) : Z * list llama_token :=
  if n_tokens_max <? 3 then (-3, []) else (2, [1; 99]).

Definition engine : Engine :=
  {| llama_model := unit;
     llama_context := Toy.context;
     llama_vocab := unit;
     llama_sampler := list sampler_stage;
     nprocessors_onln := 4;
     LLAMA_DEFAULT_SEED := 4294967295;
     llama_model_load_from_file := fun _ => Some tt;
     llama_model_get_vocab := fun _ => Some tt;
     llama_init_from_model := fun _ cp =>
       Some {| Toy.kv := []; Toy.capacity := cp_n_batch cp |};
     llama_memory_seq_rm := fun c _ _ _ => {| Toy.kv := []; Toy.capacity := Toy.capacity c |};
     llama_set_n_threads := fun c _ _ => c;
     llama_tokenize := fun _ _ _ _ n_max _ _ => tokenize n_max;
     llama_n_batch := Toy.capacity;
     llama_decode := Toy.decode;
     llama_sampler_chain_init := Some [];
     llama_sampler_chain_add := fun s st => s ++ [st];
     llama_sampler_reset := fun s => s;
     llama_sampler_sample := fun s c _ => (last (Toy.kv c) 0 - 1, s);
     llama_sampler_accept := fun s _ => s;
     llama_vocab_is_eog := fun _ tok => tok <=? 96;
     llama_token_to_piece := fun _ tok _ _ _ => Toy.to_piece tok |}.

Definition handle : LlamaHandle engine :=
  mkHandle engine (Some tt) (Some {| Toy.kv := []; Toy.capacity := 256 |}) (Some tt) 256.

End ShortWrite.

(** ** An engine whose calls can be made to fail

    The small engine, with switches for the model load, the context
    creation, the vocabulary pointer, the tokenizer (which, switched off,
    announces no token) and the creation of the sampler chain. *)
Module Faulty.

Definition engine (load_ok init_ok vocab_ok tokens_ok chain_ok : bool) : Engine :=
  {| llama_model := unit;
     llama_context := Toy.context;
     llama_vocab := unit;
     llama_sampler := list sampler_stage;
     nprocessors_onln := 4;
     LLAMA_DEFAULT_SEED := 4294967295;
     llama_model_load_from_file := fun _ => if load_ok then Some tt else None;
     llama_model_get_vocab := fun _ => if vocab_ok then Some tt else None;
     llama_init_from_model := fun _ cp =>
       if init_ok then Some {| Toy.kv := []; Toy.capacity := cp_n_batch cp |} else None;
     llama_memory_seq_rm := fun c _ _ _ => {| Toy.kv := []; Toy.capacity := Toy.capacity c |};
     llama_set_n_threads := fun c _ _ => c;
     llama_tokenize := fun _ text _ _ n_max _ _ =>
       if tokens_ok then Toy.tokenize text n_max else (0, []);
     llama_n_batch := Toy.capacity;
     llama_decode := Toy.decode;
     llama_sampler_chain_init := if chain_ok then Some [] else None;
     llama_sampler_chain_add := fun s st => s ++ [st];
     llama_sampler_reset := fun s => s;
     llama_sampler_sample := fun s c _ => (last (Toy.kv c) 0 - 1, s);
     llama_sampler_accept := fun s _ => s;
     llama_vocab_is_eog := fun _ tok => tok <=? 96;
     llama_token_to_piece := fun _ tok _ _ _ => Toy.to_piece tok |}.

(** A handle on a context that holds [kv] and has the given batch
    capacity. *)
Definition handle (load_ok init_ok vocab_ok tokens_ok chain_ok : bool)
    (kv : list llama_token) (cap : Z)
    : LlamaHandle (engine load_ok init_ok vocab_ok tokens_ok chain_ok) :=
  mkHandle (engine load_ok init_ok vocab_ok tokens_ok chain_ok) (Some tt)
    (Some {| Toy.kv := kv; Toy.capacity := cap |}) (Some tt) 256.

End Faulty.

(** * Properties *)

(** ** Machine integers *)

Lemma wrap_int_range (z : Z) : INT_MIN <= wrap_int z <= INT_MAX.
Proof.
  unfold wrap_int, INT_MIN, INT_MAX.
  pose proof (Z.mod_pos_bound (z + 2147483648) 4294967296 eq_refl). lia.
Qed.

Lemma wrap_int_small (z : Z) : INT_MIN <= z <= INT_MAX -> wrap_int z = z.
Proof.
  unfold wrap_int, INT_MIN, INT_MAX. intros H.
  rewrite Z.mod_small; lia.
Qed.

Lemma std_max_spec (a b : Z) : std_max a b = Z.max a b.
Proof. unfold std_max. destruct (a <? b) eqn:H; [apply Z.ltb_lt in H|apply Z.ltb_ge in H]; lia. Qed.

Lemma std_min_spec (a b : Z) : std_min a b = Z.min a b.
Proof. unfold std_min. destruct (b <? a) eqn:H; [apply Z.ltb_lt in H|apply Z.ltb_ge in H]; lia. Qed.

(** ** C strings *)

Lemma c_str_no_zero (s : std_string) : ~ In x00 s -> c_str s = s.
Proof.
  induction s as [|b s IH]; intros H; cbn; [reflexivity|].
  destruct (Byte.eqb b x00) eqn:Hb.
  - exfalso. apply H. left. symmetry. now apply Byte.byte_dec_bl.
  - rewrite IH; [reflexivity|]. intros Hin. apply H. now right.
Qed.

Lemma c_str_prefix (s : std_string) : exists tl, s = c_str s ++ tl.
Proof.
  induction s as [|b s (tl & IH)]; cbn; [exists []; reflexivity|].
  destruct (Byte.eqb b x00); [exists (b :: s); reflexivity|].
  exists tl. cbn. now rewrite <- IH.
Qed.

Lemma c_str_has_no_zero (s : std_string) : ~ In x00 (c_str s).
Proof.
  induction s as [|b s IH]; cbn; [tauto|].
  destruct (Byte.eqb b x00) eqn:Hb; [tauto|].
  intros [H|H]; [|now apply IH]. subst b. discriminate Hb.
Qed.

(** ** Traces *)

(** Right-nested form of a trace built with [++] and [::]. *)
Ltac list_norm :=
  repeat first [rewrite <- app_assoc | rewrite <- app_comm_cons | rewrite app_nil_r];
  cbn [app].

Lemma samples_app (a b : list Event) : samples (a ++ b) = samples a ++ samples b.
Proof. apply flat_map_app. Qed.

Lemma chain_stages_app (a b : list Event) :
  chain_stages (a ++ b) = chain_stages a ++ chain_stages b.
Proof. apply flat_map_app. Qed.

Lemma decodes_app (a b : list Event) : decodes (a ++ b) = decodes a ++ decodes b.
Proof. apply flat_map_app. Qed.

Lemma errors_app (a b : list Event) : errors (a ++ b) = errors a ++ errors b.
Proof. apply flat_map_app. Qed.

Lemma calls_app (a b : list Event) : calls (a ++ b) = calls a ++ calls b.
Proof. apply filter_app. Qed.

(** ** The generation loop *)

Section Generation.

Context (E : Engine) (v : llama_vocab E).

Lemma generate_gen_trace (n : nat) :
  forall t smpl out c,
  exists g c' tr,
    generate E n t v smpl out c = (Go g, c', tr) /\
    gen_trace E v t out tr (snd g) /\
    (length (samples tr) <= n)%nat.
Proof.
  induction n as [|n IH]; intros t smpl out c.
  - exists (smpl, out), c, []. cbn. repeat split; [constructor | lia].
  - cbn [generate]. unfold bind, call_sample, call_is_eog, emit, call_token_to_piece,
      call_decode, pure.
    set (r := llama_sampler_sample E smpl c (-1)).
    destruct (llama_vocab_is_eog E v (fst r)) eqn:Heog.
    + exists (snd r, out), c, [Call_sample (fst r); Call_is_eog (fst r)].
      cbn. repeat split; [now constructor | lia].
    + set (out' := if fst (llama_token_to_piece E v (fst r) 8192 0 true) >? 0
                   then out ++ firstn (Z.to_nat (fst (llama_token_to_piece E v (fst r) 8192 0 true)))
                                      (snd (llama_token_to_piece E v (fst r) 8192 0 true))
                   else out).
      assert (Hout : out' = out ++ piece_of E v (fst r)).
      { unfold out', piece_of.
        destruct (fst (llama_token_to_piece E v (fst r) 8192 0 true) >? 0);
          [reflexivity | now rewrite app_nil_r]. }
      destruct (fst (llama_decode E c [fst r]) =? 0) eqn:Hst; cbn [negb].
      * apply Z.eqb_eq in Hst.
        destruct (IH (t + 1) (llama_sampler_accept E (snd r) (fst r)) out'
                     (snd (llama_decode E c [fst r]))) as (g & c' & tr & Hg & Htr & Hlen).
        rewrite Hg. eexists g, c', _. split; [reflexivity|].
        rewrite Hst. split.
        -- rewrite Hout in Htr. apply (gen_more E v t out (fst r) tr (snd g) Heog Htr).
        -- unfold samples in *. cbn. lia.
      * apply Z.eqb_neq in Hst.
        eexists (_, out'), _, _. split; [reflexivity|]. split.
        -- cbn [snd]. rewrite Hout.
           apply (gen_failed E v t out (fst r) _ Heog Hst).
        -- cbn. lia.
Qed.

Lemma gen_trace_chain_stages t out tr out' :
  gen_trace E v t out tr out' -> chain_stages tr = [].
Proof. induction 1; cbn; auto. Qed.



(** No decode of the loop fails unless the failure is logged. *)
Lemma gen_trace_errors t out tr out' :
  gen_trace E v t out tr out' ->
  forall m, In m (errors tr) -> exists b st, In (Call_decode b st) tr /\ st <> 0.
Proof.
  induction 1 as [t out | t out tok0 Heog | t out tok0 st0 Heog Hst
                 | t out tok0 tr out' Heog Hgen IH]; intros m Hin.
  - destruct Hin.
  - destruct Hin.
  - exists [tok0], st0. split; [cbn; auto 10 | assumption].
  - cbn in Hin. destruct (IH m Hin) as (b & st & Hb & Hst).
    exists b, st. split; [|assumption]. cbn. auto 10.
Qed.

End Generation.

(** ** The prompt loop and the whole call *)

Section Completion.

Context (E : Engine).

(** The prompt loop samples nothing and adds no stage; when it falls
    through, every decode succeeded and nothing was logged as an error. *)
Lemma decode_prompt_trace (fuel : nat) (toks : list llama_token) (n nb : Z) :
  forall i c,
    let r := decode_prompt E fuel toks n nb i c in
    samples (snd r) = [] /\
    chain_stages (snd r) = [] /\
    ((fst (fst r) = Go tt /\ errors (snd r) = [] /\
      Forall (fun d => snd d = 0) (decodes (snd r))) \/
     fst (fst r) = Done [] \/ fst (fst r) = Spin).
Proof.
  induction fuel as [|fuel IH]; intros i c; cbn [decode_prompt].
  - destruct (i <? n); cbn; auto 10.
  - destruct (i <? n); [|cbn; auto 10].
    unfold bind, call_decode, emit, exit_with.
    destruct (fst (llama_decode E c _) =? 0) eqn:Hst; cbn [negb].
    + apply Z.eqb_eq in Hst.
      specialize (IH (int_add i nb) (snd (llama_decode E c
        (llama_batch_get_one toks i (std_min nb (int_sub n i)))))).
      destruct (decode_prompt E fuel toks n nb (int_add i nb) _) as [[f c'] tr].
      cbn in IH |- *. destruct IH as (Hs & Hc & Hf).
      repeat split; auto.
      destruct Hf as [(Hg & He & Hd)|Hf]; [left|right; exact Hf].
      repeat split; auto.
    + cbn; auto 10.
Qed.

Lemma clear_memory_run (c : llama_context E) :
  exists c', clear_memory E 16 0 c =
    (Go tt, c', map (fun s => Call_memory_seq_rm s 0 (-1)) [0; 1; 2; 3; 4; 5; 6; 7;
                                                            8; 9; 10; 11; 12; 13; 14; 15]).
Proof. eexists. reflexivity. Qed.

Lemma completion_shape (fuel : nat) (v : llama_vocab E) (h_n_ctx : Z)
    (prompt : std_string) (nThreads maxTokens : Z) (temp topP : jfloat) (seed : Z)
    (c : llama_context E) :
  completion_view E v maxTokens temp topP seed
    (completion E fuel v h_n_ctx prompt nThreads maxTokens temp topP seed c).
Proof.
  unfold completion.
  destruct (clear_memory_run c) as (c1 & Hclear).
  unfold bind at 1. rewrite Hclear. clear Hclear.
  unfold sample_text, check_capacity.
  unfold bind, call_set_n_threads, emit, call_tokenize, call_n_batch, exit_with, pure.
  cbn [fst snd].
  set (c2 := llama_set_n_threads E c1 _ _).
  set (len := wrap_int (Z.of_nat (length prompt))).
  set (n_prompt := int_neg (fst (llama_tokenize E v prompt len false 0 true true))).
  destruct (n_prompt <=? 0); [apply view_early; cbn; auto|].
  set (r1 := llama_tokenize E v prompt len true n_prompt true true).
  destruct (fst r1 <? 0); [apply view_early; cbn; auto|].
  set (warn := if int_add (int_add n_prompt (std_max 1 maxTokens)) 8 >? h_n_ctx
               then _ else _).
  assert (Hwarn : exists w, warn c2 = (Go tt, c2, w) /\ samples w = [] /\
                  errors w = [] /\ chain_stages w = [] /\ decodes w = []).
  { unfold warn. destruct (_ >? h_n_ctx); eexists; repeat split. }
  destruct Hwarn as (w & -> & Hws & Hwe & Hwc & Hwd).
  pose proof (decode_prompt_trace fuel (fill_buffer n_prompt (snd r1)) n_prompt
                (wrap_int (llama_n_batch E c2)) 0 c2) as Hdp.
  destruct (decode_prompt E fuel _ n_prompt _ 0 c2) as [[f c3] ptr].
  cbv zeta in Hdp. cbn [fst snd] in Hdp. destruct Hdp as (Hps & Hpc & Hpf).
  destruct f as [[]|s|].
  2,3: apply view_early;
    [destruct Hpf as [(Hg & _)|[Hpf|Hpf]]; try discriminate;
       first [injection Hpf as ->; left; reflexivity | right; reflexivity]
    | rewrite !samples_app, Hws, Hps; reflexivity
    | rewrite !chain_stages_app, Hwc, Hpc; reflexivity].
  destruct Hpf as [(_ & Hpe & Hpd)|[Hpf|Hpf]]; try discriminate.
  unfold build_sampler, bind, emit, exit_with, pure.
  destruct (llama_sampler_chain_init E) as [smpl|].
  2:{ apply view_early; [auto | |].
      - rewrite !samples_app, Hws, Hps. reflexivity.
      - rewrite !chain_stages_app, Hwc, Hpc. reflexivity. }
  assert (Hadd : exists smpl',
    add_stages E smpl (normalize_temp temp) (normalize_top_p topP) (sampler_seed E seed) c3 =
    (Go smpl', c3, map Call_chain_add (sampler_stages E temp topP seed))).
  { unfold add_stages, sampler_stages, bind, call_chain_add.
    destruct (SFeqb (normalize_temp temp) f_zero); eexists; reflexivity. }
  destruct Hadd as (smpl' & ->).
  destruct (generate_gen_trace E v (Z.to_nat (std_max 1 maxTokens)) 0
              (llama_sampler_reset E smpl') [] c3) as (g & c4 & gtr & -> & Hgt & Hlen).
  match goal with
  | |- completion_view _ _ _ _ _ _ (_, _, ?tr) =>
      replace tr with
        ((map (fun s => Call_memory_seq_rm s 0 (-1))
              [0; 1; 2; 3; 4; 5; 6; 7; 8; 9; 10; 11; 12; 13; 14; 15] ++
          [Call_set_n_threads (resolve_threads E nThreads) (resolve_threads E nThreads);
           LOGI (MsgConfig (resolve_threads E nThreads) maxTokens temp topP seed);
           Call_tokenize 0; Call_tokenize n_prompt] ++ w ++ [Call_n_batch] ++ ptr ++
          [Call_chain_init] ++ map Call_chain_add (sampler_stages E temp topP seed) ++
          [Call_sampler_reset]) ++ gtr ++ [Call_sampler_free])
  end.
  2:{ cbn. list_norm. reflexivity. }
  apply view_generated; auto.
  - rewrite !samples_app, Hws, Hps.
    unfold sampler_stages. destruct (SFeqb _ _); reflexivity.
  - rewrite !errors_app, Hwe, Hpe.
    unfold sampler_stages. destruct (SFeqb _ _); reflexivity.
  - rewrite !chain_stages_app, Hwc, Hpc.
    unfold sampler_stages. destruct (SFeqb _ _); reflexivity.
  - rewrite !decodes_app, Hwd.
    unfold sampler_stages. destruct (SFeqb _ _);
      unfold decodes in *; cbn; rewrite app_nil_r; exact Hpd.
Qed.

End Completion.

(** ** The JNI function as a whole *)

Section Native.

Context (E : Engine).

Lemma finish_trace h x : r_trace E (finish E h x) = snd x.
Proof. destruct x as [[[a|s|] c] tr]; reflexivity. Qed.

Lemma finish_handle h x : r_handle E (finish E h x) = Some (with_ctx E h (snd (fst x))).
Proof. destruct x as [[[a|s|] c] tr]; reflexivity. Qed.

Lemma finish_out h x :
  r_out E (finish E h x) =
  match fst (fst x) with
  | Go s => Returned (toJStr s)
  | Done s => Returned (toJStr s)
  | Spin => OutOfFuel
  end.
Proof. destruct x as [[[a|s|] c] tr]; reflexivity. Qed.

(** A call either stops at the two checks, leaving one log line, or runs
    [completion] on the context of the handle; which of the two depends on
    the handle and the prompt only. *)
Lemma nativeCompletion_cases (jHandle : option (LlamaHandle E))
    (cprompt : option std_string) :
  (exists ev, is_log ev = true /\
     forall fuel nThreads maxTokens temp topP seed,
       nativeCompletion E fuel jHandle cprompt nThreads maxTokens temp topP seed =
       mkRun E (Returned []) jHandle [ev]) \/
  (exists h c m v b rest,
      jHandle = Some h /\ ctx E h = Some c /\ model E h = Some m /\ vocab E h = Some v /\
      cprompt = Some (b :: rest) /\
      forall fuel nThreads maxTokens temp topP seed,
        nativeCompletion E fuel jHandle cprompt nThreads maxTokens temp topP seed =
        finish E h
          (completion E fuel v (n_ctx E h) (b :: rest) nThreads maxTokens temp topP seed c)).
Proof.
  unfold nativeCompletion.
  destruct jHandle as [h|]; [|left; eexists; split; [|reflexivity]; reflexivity].
  destruct (ctx E h) as [c|] eqn:Hc; [|left; eexists; split; [|reflexivity]; reflexivity].
  destruct (model E h) as [m|] eqn:Hm; [|left; eexists; split; [|reflexivity]; reflexivity].
  destruct (vocab E h) as [v|] eqn:Hv; [|left; eexists; split; [|reflexivity]; reflexivity].
  destruct cprompt as [[|b rest]|]; cbn zeta.
  - left. eexists. split; [|reflexivity]. reflexivity.
  - right. exists h, c, m, v, b, rest. repeat split; auto.
  - left. eexists. split; [|reflexivity]. reflexivity.
Qed.

Lemma log_line_trace (ev : Event) :
  is_log ev = true ->
  samples [ev] = [] /\ chain_stages [ev] = [] /\ decodes [ev] = [] /\ calls [ev] = [].
Proof. destruct ev; cbn; intros H; try discriminate; auto. Qed.

(** The shape of [completion], read off the call. *)
Lemma nativeCompletion_shape (fuel : nat) (h : LlamaHandle E) (v : llama_vocab E)
    (cprompt : option std_string) (nThreads maxTokens : Z) (temp topP : jfloat) (seed : Z) :
  vocab E h = Some v ->
  let r := nativeCompletion E fuel (Some h) cprompt nThreads maxTokens temp topP seed in
  (samples (r_trace E r) = [] /\ chain_stages (r_trace E r) = [] /\
   (r_out E r = Returned [] \/ r_out E r = OutOfFuel)) \/
  (exists pre gtr out,
      r_trace E r = pre ++ gtr ++ [Call_sampler_free] /\
      r_out E r = Returned (toJStr out) /\
      samples pre = [] /\ errors pre = [] /\
      chain_stages pre = sampler_stages E temp topP seed /\
      Forall (fun d => snd d = 0) (decodes pre) /\
      gen_trace E v 0 [] gtr out /\
      (length (samples gtr) <= Z.to_nat (std_max 1 maxTokens))%nat).
Proof.
  intros Hv r.
  destruct (nativeCompletion_cases (Some h) cprompt)
    as [(ev & Hlog & Hr)|(h' & c & m & v' & b & rest & Hh & Hc & Hm & Hv' & Hp & Hr)];
    specialize (Hr fuel nThreads maxTokens temp topP seed); fold r in Hr.
  - left. rewrite Hr. cbn [r_trace r_out].
    destruct (log_line_trace ev Hlog) as (H1 & H2 & _). auto.
  - injection Hh as <-. rewrite Hv in Hv'. injection Hv' as <-.
    pose proof (completion_shape E fuel v (n_ctx E h) (b :: rest) nThreads maxTokens
                  temp topP seed c) as Hshape.
    rewrite Hr, finish_trace, finish_out.
    inversion Hshape as [f c' tr Hf Hs Hcs Heq | pre gtr out c' Hs He Hcs Hd Hg Hl Heq].
    + left. cbn [fst snd]. repeat split; auto.
      destruct Hf as [-> | ->]; auto.
    + right. exists pre, gtr, out. cbn [fst snd]. repeat split; auto.
Qed.

End Native.

(** The handles of the small engine are the ones [nativeLoadModel] makes. *)
Lemma toy_handle_loaded :
  fst (nativeLoadModel Toy.engine (Some Toy.path) 256) = Some (Toy.handle 256) /\
  fst (nativeLoadModel Toy.engine (Some Toy.path) 2) = Some (Toy.handle 2).
Proof. split; reflexivity. Qed.

(** ** Stop conditions of the generation loop *)







(** ** Float comparisons *)


Lemma SFeqb_zero_normalize (x : jfloat) :
  SFeqb x f_zero = true -> normalize_temp x = f_zero.
Proof. destruct x as [s|[|]| |[|] m e]; cbn; intros H; try discriminate; auto. Qed.






(** ** Runs that differ by log lines only *)

Section Agreement.

Context (E : Engine) (keep : Event -> bool).

Lemma agree_refl {A} (x : Flow A * llama_context E * list Event) : agree E keep x x.
Proof. split; reflexivity. Qed.

Lemma bind_agree {A B} (m1 m2 : M E A) (k1 k2 : A -> M E B) (c : llama_context E) :
  agree E keep (m1 c) (m2 c) ->
  (forall a c', agree E keep (k1 a c') (k2 a c')) ->
  agree E keep (bind E m1 k1 c) (bind E m2 k2 c).
Proof.
  unfold agree, bind.
  destruct (m1 c) as [[f1 c1] t1], (m2 c) as [[f2 c2] t2]. cbn [fst snd].
  intros [Heq Ht] Hk. injection Heq as -> ->.
  destruct f2 as [a|s|]; cbn [fst snd]; auto.
  specialize (Hk a c2).
  destruct (k1 a c2) as [[g1 d1] u1], (k2 a c2) as [[g2 d2] u2]. cbn [fst snd] in *.
  destruct Hk as [Heq Hu]. split; [assumption|].
  rewrite !filter_app. congruence.
Qed.

Lemma emit_agree (ev1 ev2 : Event) (c : llama_context E) :
  keep ev1 = false -> keep ev2 = false -> agree E keep (emit E ev1 c) (emit E ev2 c).
Proof. intros H1 H2. split; cbn; [reflexivity | now rewrite H1, H2]. Qed.

Lemma finish_agree (h : LlamaHandle E) (x y : Flow std_string * llama_context E * list Event) :
  agree E keep x y ->
  r_out E (finish E h x) = r_out E (finish E h y) /\
  r_handle E (finish E h x) = r_handle E (finish E h y) /\
  filter keep (r_trace E (finish E h x)) = filter keep (r_trace E (finish E h y)).
Proof.
  destruct x as [[f1 c1] t1], y as [[f2 c2] t2]. intros [Heq Ht]. cbn [fst snd] in *.
  injection Heq as -> ->. destruct f2; cbn; auto.
Qed.

End Agreement.

(** ** The sampler chain *)

Section Sampler.

Context (E : Engine).

(** Whatever the arguments, a call adds to the chain the stages of
    [sampler_stages], or it ends before the chain exists and samples
    nothing. *)
Lemma nativeCompletion_chain (fuel : nat) (jHandle : option (LlamaHandle E))
    (cprompt : option std_string) (nThreads maxTokens : Z) (temp topP : jfloat) (seed : Z) :
  let r := nativeCompletion E fuel jHandle cprompt nThreads maxTokens temp topP seed in
  chain_stages (r_trace E r) = sampler_stages E temp topP seed \/
  (chain_stages (r_trace E r) = [] /\ samples (r_trace E r) = []).
Proof.
  intros r. subst r.
  destruct (nativeCompletion_cases E jHandle cprompt)
    as [(ev & Hlog & Hr)|(h & c & m & v & b & rest & Hh & Hc & Hm & Hv & Hp & Hr)];
    specialize (Hr fuel nThreads maxTokens temp topP seed).
  - right. rewrite Hr. cbn [r_trace].
    destruct (log_line_trace ev Hlog) as (H1 & H2 & _). auto.
  - subst jHandle.
    destruct (nativeCompletion_shape E fuel h v cprompt nThreads maxTokens temp topP seed Hv)
      as [(Hs & Hcs & _)|(pre & gtr & out & Htr & _ & _ & _ & Hcs & _ & Hg & _)].
    + right. auto.
    + left. rewrite Htr, !chain_stages_app, Hcs.
      rewrite (gen_trace_chain_stages E v 0 [] gtr out Hg). cbn. now rewrite app_nil_r.
Qed.

Lemma build_sampler_greedy (temp topP : jfloat) (seed1 seed2 : Z) :
  SFeqb (normalize_temp temp) f_zero = true ->
  build_sampler E temp topP seed1 = build_sampler E temp topP seed2.
Proof.
  intros H. unfold build_sampler, add_stages. rewrite H. reflexivity.
Qed.

Lemma completion_greedy_seed (fuel : nat) (v : llama_vocab E) (h_n_ctx : Z)
    (prompt : std_string) (nThreads maxTokens : Z) (temp topP : jfloat) (seed1 seed2 : Z)
    (c : llama_context E) :
  SFeqb (normalize_temp temp) f_zero = true ->
  agree E (fun ev => negb (is_log ev))
    (completion E fuel v h_n_ctx prompt nThreads maxTokens temp topP seed1 c)
    (completion E fuel v h_n_ctx prompt nThreads maxTokens temp topP seed2 c).
Proof.
  intros H. unfold completion, sample_text. cbv zeta.
  rewrite (build_sampler_greedy temp topP seed1 seed2 H).
  apply bind_agree; [apply agree_refl | intros _ c1].
  apply bind_agree; [apply agree_refl | intros _ c2].
  apply bind_agree; [now apply emit_agree | intros _ c3].
  apply agree_refl.
Qed.

End Sampler.



(** C4. With temperature 0, two calls that differ only by their seeds
    return the same text, leave the handle in the same state and make the
    same engine calls: the chain holds the greedy stage alone (or the call
    ended before the chain was built), so no stage ever receives the
    seed. *)
Theorem greedy_output_ignores_seed (E : Engine) (fuel : nat)
    (jHandle : option (LlamaHandle E)) (cprompt : option std_string)
    (nThreads maxTokens : Z) (temp topP : jfloat) (seed1 seed2 : Z) :
  SFeqb temp f_zero = true ->
  let r1 := nativeCompletion E fuel jHandle cprompt nThreads maxTokens temp topP seed1 in
  let r2 := nativeCompletion E fuel jHandle cprompt nThreads maxTokens temp topP seed2 in
  r_out E r1 = r_out E r2 /\
  r_handle E r1 = r_handle E r2 /\
  calls (r_trace E r1) = calls (r_trace E r2) /\
  (chain_stages (r_trace E r1) = [init_greedy] \/
   (chain_stages (r_trace E r1) = [] /\ samples (r_trace E r1) = [])).
Proof.
  intros Htemp r1 r2. subst r1 r2.
  assert (HT : SFeqb (normalize_temp temp) f_zero = true)
    by (rewrite (SFeqb_zero_normalize temp Htemp); reflexivity).
  match goal with
  | |- ?A /\ ?B /\ ?C /\ _ => assert (Hsame : A /\ B /\ C)
  end.
  { destruct (nativeCompletion_cases E jHandle cprompt)
      as [(ev & Hlog & Hr)|(h & c & m & v & b & rest & Hh & Hc & Hm & Hv & Hp & Hr)];
      rewrite !Hr.
    - auto.
    - apply (finish_agree E (fun ev => negb (is_log ev))).
      now apply completion_greedy_seed. }
  destruct Hsame as (H1 & H2 & H3). repeat split; auto.
  destruct (nativeCompletion_chain E fuel jHandle cprompt nThreads maxTokens temp topP seed1)
    as [Hc|Hc]; [left|right; exact Hc].
  rewrite Hc. unfold sampler_stages. rewrite HT. reflexivity.
Qed.

(** The run on the small engine at temperature 0 with seeds 7 and 1234:
    the same text "ba". *)
Lemma greedy_output_ignores_seed_witness :
  r_out Toy.engine
    (nativeCompletion Toy.engine 10 (Some (Toy.handle 256)) (Some Toy.prompt_c) 0 8
       f_zero f_zero 7) =
  r_out Toy.engine
    (nativeCompletion Toy.engine 10 (Some (Toy.handle 256)) (Some Toy.prompt_c) 0 8
       f_zero f_zero 1234).
Proof.
  exact (proj1 (greedy_output_ignores_seed Toy.engine 10 (Some (Toy.handle 256))
                  (Some Toy.prompt_c) 0 8 f_zero f_zero 7 1234 eq_refl)).
Defined.

(** ** The call up to the prompt loop *)

Section Setup.

Context (E : Engine).

Lemma fill_buffer_length (n : Z) (written : list llama_token) :
  0 < n -> Z.of_nat (length (fill_buffer n written)) = n.
Proof.
  intros Hn. unfold fill_buffer.
  rewrite length_firstn, length_app, repeat_length. lia.
Qed.

Lemma prompt_tokens_length (v : llama_vocab E) (prompt : std_string)
    (toks : list llama_token) :
  prompt_tokens E v prompt = Some toks ->
  0 < Z.of_nat (length toks) <= INT_MAX.
Proof.
  unfold prompt_tokens.
  set (n := int_neg _).
  destruct (n <=? 0) eqn:Hn; [discriminate|]. apply Z.leb_gt in Hn.
  destruct (fst _ <? 0); [discriminate|].
  intros H. injection H as <-. rewrite (fill_buffer_length _ _ Hn).
  split; [assumption|]. apply wrap_int_range.
Qed.

(** Once the prompt is tokenized, a call is the setup, the capacity check,
    the read of the batch capacity, and then the prompt loop and the
    generation run on the prepared context. *)
Lemma completion_tokenized (fuel : nat) (v : llama_vocab E) (h_n_ctx : Z)
    (prompt : std_string) (nThreads maxTokens : Z) (temp topP : jfloat) (seed : Z)
    (c : llama_context E) (toks : list llama_token) :
  prompt_tokens E v prompt = Some toks ->
  let n := Z.of_nat (length toks) in
  let c2 := prepared E c nThreads in
  completion E fuel v h_n_ctx prompt nThreads maxTokens temp topP seed c =
  (fst (bind E (decode_prompt E fuel toks n (wrap_int (llama_n_batch E c2)) 0)
               (fun _ => sample_text E v maxTokens temp topP seed) c2),
   setup_events E nThreads maxTokens temp topP seed n ++
   snd (check_capacity E n (std_max 1 maxTokens) h_n_ctx c2) ++
   Call_n_batch ::
   snd (bind E (decode_prompt E fuel toks n (wrap_int (llama_n_batch E c2)) 0)
               (fun _ => sample_text E v maxTokens temp topP seed) c2)).
Proof.
  intros Htok n c2. unfold prompt_tokens in Htok.
  unfold completion.
  destruct (clear_memory_run E c) as (c1 & Hclear).
  assert (Hc2 : c2 = llama_set_n_threads E c1 (resolve_threads E nThreads)
                       (resolve_threads E nThreads)).
  { unfold c2, prepared, cleared. now rewrite Hclear. }
  unfold bind at 1. rewrite Hclear. clear Hclear.
  unfold bind at 1. unfold call_set_n_threads at 1. rewrite <- Hc2.
  unfold bind at 1. unfold emit at 1.
  unfold bind at 1. unfold call_tokenize at 1. cbn [fst].
  set (n0 := int_neg _) in Htok |- *.
  destruct (n0 <=? 0) eqn:Hn; [discriminate|]. apply Z.leb_gt in Hn.
  unfold bind at 1. unfold call_tokenize at 1.
  set (r1 := llama_tokenize E v prompt _ true n0 true true) in Htok |- *.
  destruct (fst r1 <? 0); [discriminate|].
  injection Htok as Htok.
  assert (Hn0 : n0 = n) by (unfold n; rewrite <- Htok; now rewrite fill_buffer_length).
  rewrite Htok, Hn0.
  unfold bind at 1.
  assert (Hchk : check_capacity E n (std_max 1 maxTokens) h_n_ctx c2 =
                 (Go tt, c2, snd (check_capacity E n (std_max 1 maxTokens) h_n_ctx c2))).
  { unfold check_capacity. destruct (_ >? h_n_ctx); reflexivity. }
  rewrite Hchk at 1.
  unfold bind at 1. unfold call_n_batch at 1.
  destruct (bind E _ _ c2) as [[f c'] t]. cbn [fst snd].
  reflexivity.
Qed.

End Setup.

(** ** Reset of the context *)

Section Reset.

Context (E : Engine).

Lemma clear_memory_cleared (c : llama_context E) :
  clear_memory E 16 0 c = (Go tt, cleared E c, clear_events).
Proof. reflexivity. Qed.

(** The context reaches the rest of [completion] through the sixteen
    removals only. *)
Lemma completion_clears_first (fuel : nat) (v : llama_vocab E) (h_n_ctx : Z)
    (prompt : std_string) (nThreads maxTokens : Z) (temp topP : jfloat) (seed : Z) :
  exists k : M E std_string,
    forall c,
      completion E fuel v h_n_ctx prompt nThreads maxTokens temp topP seed c =
      (fst (k (cleared E c)), clear_events ++ snd (k (cleared E c))).
Proof.
  unfold completion.
  match goal with
  | |- context [bind E (clear_memory E 16 0) ?f] => exists (f tt); intros c
  end.
  unfold bind at 1. rewrite clear_memory_cleared. cbv beta zeta.
  destruct (bind E _ _ (cleared E c)) as [[f c2] t2].
  reflexivity.
Qed.

End Reset.

(** C5. On a valid handle and a non-empty prompt, a call begins with the
    removal of sequence ids 0 to 15, each over the whole range of
    positions (from 0, to -1), before anything else is done with the
    engine; and the context takes part in the call through the cleared
    state only: started from any other context that clears to the same
    state, the call is the same in its result, its trace and the context
    it leaves. *)
Theorem memory_cleared_before_evaluation (E : Engine) (fuel : nat) (h : LlamaHandle E)
    (c : llama_context E) (m : llama_model E) (v : llama_vocab E)
    (b : byte) (rest : std_string) (nThreads maxTokens : Z) (temp topP : jfloat)
    (seed : Z) :
  ctx E h = Some c -> model E h = Some m -> vocab E h = Some v ->
  let run := fun h' =>
    nativeCompletion E fuel (Some h') (Some (b :: rest)) nThreads maxTokens temp topP seed in
  (exists tl,
      r_trace E (run h) =
      map (fun s => Call_memory_seq_rm s 0 (-1)) (map Z.of_nat (seq 0 16)) ++ tl) /\
  (forall c', cleared E c' = cleared E c -> run (with_ctx E h c') = run h).
Proof.
  intros Hc Hm Hv run. subst run. cbv beta.
  destruct (completion_clears_first E fuel v (n_ctx E h) (b :: rest) nThreads maxTokens
              temp topP seed) as (k & Hk).
  assert (Hrun : forall c0,
    nativeCompletion E fuel (Some (with_ctx E h c0)) (Some (b :: rest)) nThreads maxTokens
      temp topP seed =
    finish E h (fst (k (cleared E c0)), clear_events ++ snd (k (cleared E c0)))).
  { intros c0. unfold nativeCompletion. cbn [ctx model vocab n_ctx with_ctx].
    rewrite Hm, Hv, Hk.
    destruct (k (cleared E c0)) as [[[s|s|] c2] t2]; reflexivity. }
  assert (Hh : nativeCompletion E fuel (Some h) (Some (b :: rest)) nThreads maxTokens
                 temp topP seed =
               finish E h (fst (k (cleared E c)), clear_events ++ snd (k (cleared E c)))).
  { unfold nativeCompletion. rewrite Hc, Hm, Hv, Hk. reflexivity. }
  split.
  - exists (snd (k (cleared E c))). rewrite Hh, finish_trace. reflexivity.
  - intros c' Heq. rewrite Hrun, Hh, Heq. reflexivity.
Qed.

(** The run on the small engine from a context that still holds the
    tokens of an earlier call. *)
Lemma memory_cleared_before_evaluation_witness :
  nativeCompletion Toy.engine 10
    (Some (with_ctx Toy.engine (Toy.handle 256)
             {| Toy.kv := [1; 104; 105]; Toy.capacity := 256 |}))
    (Some Toy.prompt_c) 0 8 f_zero f_zero (-1) =
  nativeCompletion Toy.engine 10 (Some (Toy.handle 256)) (Some Toy.prompt_c)
    0 8 f_zero f_zero (-1).
Proof.
  exact (proj2 (memory_cleared_before_evaluation Toy.engine 10 (Toy.handle 256)
                  {| Toy.kv := []; Toy.capacity := 256 |} tt tt "c"%byte [] 0 8
                  f_zero f_zero (-1) eq_refl eq_refl eq_refl)
               {| Toy.kv := [1; 104; 105]; Toy.capacity := 256 |} eq_refl).
Defined.

(** ** The checks at the entry *)

(** C8. On a valid handle, a call with an empty prompt returns the empty
    string, leaves the handle as it was and makes no engine call at all:
    its whole trace is the warning. *)
Theorem empty_prompt_short_circuits (E : Engine) (fuel : nat) (h : LlamaHandle E)
    (c : llama_context E) (m : llama_model E) (v : llama_vocab E)
    (cprompt : option std_string) (nThreads maxTokens : Z) (temp topP : jfloat)
    (seed : Z) :
  ctx E h = Some c -> model E h = Some m -> vocab E h = Some v ->
  cprompt = Some [] \/ cprompt = None ->
  let r := nativeCompletion E fuel (Some h) cprompt nThreads maxTokens temp topP seed in
  r = mkRun E (Returned []) (Some h) [LOGW MsgEmptyPrompt] /\
  calls (r_trace E r) = [].
Proof.
  intros Hc Hm Hv Hp r. subst r. unfold nativeCompletion.
  rewrite Hc, Hm, Hv. destruct Hp as [-> | ->]; split; reflexivity.
Qed.

Lemma empty_prompt_short_circuits_witness :
  nativeCompletion Toy.engine 10 (Some (Toy.handle 256)) (Some []) 0 8 f_zero f_zero (-1) =
  mkRun Toy.engine (Returned []) (Some (Toy.handle 256)) [LOGW MsgEmptyPrompt].
Proof.
  exact (proj1 (empty_prompt_short_circuits Toy.engine 10 (Toy.handle 256) _ tt tt
                  (Some []) 0 8 f_zero f_zero (-1) eq_refl eq_refl eq_refl
                  (or_introl eq_refl))).
Defined.

(** C9. A call on a null handle, or on a handle whose context, model or
    vocabulary pointer is null, returns the empty string with no effect
    but the error line; and [nativeFree] on a null handle does nothing. *)
Theorem invalid_handle_is_rejected (E : Engine) (fuel : nat)
    (jHandle : option (LlamaHandle E)) (cprompt : option std_string)
    (nThreads maxTokens : Z) (temp topP : jfloat) (seed : Z) :
  jHandle = None \/
  (exists h, jHandle = Some h /\
             (ctx E h = None \/ model E h = None \/ vocab E h = None)) ->
  nativeCompletion E fuel jHandle cprompt nThreads maxTokens temp topP seed =
    mkRun E (Returned []) jHandle [LOGE MsgInvalidHandle] /\
  nativeFree E None = (None, []).
Proof.
  intros H. split; [|reflexivity].
  unfold nativeCompletion.
  destruct H as [-> | (h & -> & H)]; [reflexivity|].
  destruct (ctx E h), (model E h), (vocab E h); try reflexivity.
  destruct H as [H|[H|H]]; discriminate H.
Qed.

Lemma invalid_handle_is_rejected_witness :
  nativeCompletion Toy.engine 10 None (Some Toy.prompt_c) 0 8 f_zero f_zero (-1) =
    mkRun Toy.engine (Returned []) None [LOGE MsgInvalidHandle] /\
  nativeFree Toy.engine None = (None, []).
Proof.
  exact (invalid_handle_is_rejected Toy.engine 10 None (Some Toy.prompt_c) 0 8
           f_zero f_zero (-1) (or_introl eq_refl)).
Defined.

(** ** The budget and the capacity check *)

Section Budget.

Context (E : Engine).

(** The window size of the handle reaches nothing but the warning. *)
Lemma completion_n_ctx (fuel : nat) (v : llama_vocab E) (n1 n2 : Z)
    (prompt : std_string) (nThreads maxTokens : Z) (temp topP : jfloat) (seed : Z)
    (c : llama_context E) :
  agree E (fun ev => negb (is_overflow_warning ev))
    (completion E fuel v n1 prompt nThreads maxTokens temp topP seed c)
    (completion E fuel v n2 prompt nThreads maxTokens temp topP seed c).
Proof.
  unfold completion. cbv zeta.
  apply bind_agree; [apply agree_refl | intros _ c1].
  apply bind_agree; [apply agree_refl | intros _ c2].
  apply bind_agree; [apply agree_refl | intros _ c3].
  apply bind_agree; [apply agree_refl | intros r0 c4].
  destruct (_ <=? 0); [apply agree_refl|].
  apply bind_agree; [apply agree_refl | intros r1 c5].
  destruct (fst r1 <? 0); [apply agree_refl|].
  apply bind_agree; [|intros _ c6; apply agree_refl].
  unfold check_capacity.
  destruct (_ >? n1), (_ >? n2); split; reflexivity.
Qed.

(** The budget reaches the call through [max(1, maxTokens)] and the
    configuration line only. *)
Lemma completion_max_tokens (fuel : nat) (v : llama_vocab E) (h_n_ctx : Z)
    (prompt : std_string) (nThreads mt1 mt2 : Z) (temp topP : jfloat) (seed : Z)
    (c : llama_context E) :
  std_max 1 mt1 = std_max 1 mt2 ->
  agree E (fun ev => negb (is_log ev))
    (completion E fuel v h_n_ctx prompt nThreads mt1 temp topP seed c)
    (completion E fuel v h_n_ctx prompt nThreads mt2 temp topP seed c).
Proof.
  intros H. unfold completion, sample_text. cbv zeta. rewrite H.
  apply bind_agree; [apply agree_refl | intros _ c1].
  apply bind_agree; [apply agree_refl | intros _ c2].
  apply bind_agree; [now apply emit_agree | intros _ c3].
  apply agree_refl.
Qed.

(** The trace of a sequence begins with the trace of its first part. *)
Lemma bind_trace_prefix {A B} (m : M E A) (k : A -> M E B) (c : llama_context E) :
  exists tl, snd (bind E m k c) = snd (m c) ++ tl.
Proof.
  unfold bind. destruct (m c) as [[[a|s|] c1] t1].
  - destruct (k a c1) as [[f c2] t2]. exists t2. reflexivity.
  - exists []. cbn. now rewrite app_nil_r.
  - exists []. cbn. now rewrite app_nil_r.
Qed.

(** No call samples more than [max(1, maxTokens)] tokens. *)
Lemma nativeCompletion_budget (fuel : nat) (jHandle : option (LlamaHandle E))
    (cprompt : option std_string) (nThreads maxTokens : Z) (temp topP : jfloat) (seed : Z) :
  Z.of_nat (length (samples (r_trace E
    (nativeCompletion E fuel jHandle cprompt nThreads maxTokens temp topP seed)))) <=
  Z.max 1 maxTokens.
Proof.
  destruct (nativeCompletion_cases E jHandle cprompt)
    as [(ev & Hlog & Hr)|(h & c & m & v & b & rest & Hh & Hc & Hm & Hv & Hp & Hr)].
  - rewrite Hr. cbn [r_trace].
    destruct (log_line_trace ev Hlog) as (-> & _). cbn. lia.
  - subst jHandle.
    destruct (nativeCompletion_shape E fuel h v cprompt nThreads maxTokens temp topP seed Hv)
      as [(Hs & _)|(pre & gtr & out & Htr & _ & Hs & _ & _ & _ & _ & Hlen)].
    + rewrite Hs. cbn. lia.
    + rewrite Htr, !samples_app, Hs, length_app, length_app. cbn.
      rewrite std_max_spec in Hlen. lia.
Qed.

End Budget.

(** C7. When the prompt's token count plus the budget plus the margin 8
    exceeds the window size of the handle (the sum being one the [int]
    addition represents), the call logs the overflow warning and goes on:
    the warning comes right after the setup, the read of the batch
    capacity follows it, and the rest of the call is the prompt loop and
    the generation on the prepared context, with their trace and their
    result; given fuel for one iteration, the first batch of the prompt
    is decoded next.  What the call returns, the context it leaves and
    its whole trace apart from overflow warnings are the same as with any
    other window size in the handle, a non-overflowing one included. *)
Theorem capacity_overflow_only_warns (E : Engine) (fuel : nat) (h : LlamaHandle E)
    (c : llama_context E) (m : llama_model E) (v : llama_vocab E)
    (b : byte) (rest : std_string) (nThreads maxTokens : Z) (temp topP : jfloat)
    (seed : Z) (toks : list llama_token) :
  ctx E h = Some c -> model E h = Some m -> vocab E h = Some v ->
  prompt_tokens E v (b :: rest) = Some toks ->
  let n_prompt := Z.of_nat (length toks) in
  let predict := Z.max 1 maxTokens in
  n_prompt + predict + 8 <= INT_MAX ->
  n_prompt + predict + 8 > n_ctx E h ->
  let run := fun h' =>
    nativeCompletion E fuel (Some h') (Some (b :: rest)) nThreads maxTokens temp topP seed in
  let n_batch := wrap_int (llama_n_batch E (prepared E c nThreads)) in
  let go := bind E (decode_prompt E fuel toks n_prompt n_batch 0)
                   (fun _ => sample_text E v maxTokens temp topP seed)
                   (prepared E c nThreads) in
  In (LOGW (MsgOverflow n_prompt predict (n_ctx E h))) (r_trace E (run h)) /\
  r_trace E (run h) =
    setup_events E nThreads maxTokens temp topP seed n_prompt ++
    LOGW (MsgOverflow n_prompt predict (n_ctx E h)) :: Call_n_batch :: snd go /\
  r_out E (run h) = outcome_of (fst (fst go)) /\
  ((0 < fuel)%nat ->
   exists st tl,
     snd go =
     Call_decode (llama_batch_get_one toks 0 (std_min n_batch n_prompt)) st :: tl) /\
  forall n',
    r_out E (run (with_n_ctx E h n')) = r_out E (run h) /\
    option_map (ctx E) (r_handle E (run (with_n_ctx E h n'))) =
      option_map (ctx E) (r_handle E (run h)) /\
    filter (fun ev => negb (is_overflow_warning ev)) (r_trace E (run (with_n_ctx E h n'))) =
      filter (fun ev => negb (is_overflow_warning ev)) (r_trace E (run h)).
Proof.
  intros Hc Hm Hv Htok n_prompt predict Hfit Hover run n_batch go. subst run. cbv beta.
  pose proof (prompt_tokens_length E v (b :: rest) toks Htok) as Hlen.
  fold n_prompt in Hlen.
  assert (Hh : forall n',
    nativeCompletion E fuel (Some (with_n_ctx E h n')) (Some (b :: rest)) nThreads maxTokens
      temp topP seed =
    finish E (with_n_ctx E h n')
      (completion E fuel v n' (b :: rest) nThreads maxTokens temp topP seed c)).
  { intros n'. unfold nativeCompletion. cbn [ctx model vocab n_ctx with_n_ctx].
    rewrite Hc, Hm, Hv. reflexivity. }
  assert (Hh0 :
    nativeCompletion E fuel (Some h) (Some (b :: rest)) nThreads maxTokens temp topP seed =
    finish E h (completion E fuel v (n_ctx E h) (b :: rest) nThreads maxTokens temp topP
                  seed c)).
  { unfold nativeCompletion. rewrite Hc, Hm, Hv. reflexivity. }
  assert (Hwarn :
    snd (check_capacity E n_prompt (std_max 1 maxTokens) (n_ctx E h)
           (prepared E c nThreads)) =
    [LOGW (MsgOverflow n_prompt predict (n_ctx E h))]).
  { unfold check_capacity, int_add.
    rewrite std_max_spec. fold predict.
    unfold INT_MAX in Hfit, Hlen.
    rewrite (wrap_int_small (n_prompt + predict)) by (unfold INT_MIN, INT_MAX; lia).
    rewrite (wrap_int_small (n_prompt + predict + 8)) by (unfold INT_MIN, INT_MAX; lia).
    destruct (n_prompt + predict + 8 >? n_ctx E h) eqn:Hgt; [reflexivity|].
    exfalso. rewrite Z.gtb_ltb in Hgt. apply Z.ltb_ge in Hgt. lia. }
  assert (Htr :
    r_trace E (nativeCompletion E fuel (Some h) (Some (b :: rest)) nThreads maxTokens
                 temp topP seed) =
    setup_events E nThreads maxTokens temp topP seed n_prompt ++
    LOGW (MsgOverflow n_prompt predict (n_ctx E h)) :: Call_n_batch :: snd go).
  { rewrite Hh0, finish_trace.
    rewrite (completion_tokenized E fuel v (n_ctx E h) (b :: rest) nThreads maxTokens
               temp topP seed c toks Htok).
    cbn [snd]. fold n_prompt. rewrite Hwarn. reflexivity. }
  split; [|split; [|split; [|split]]].
  - rewrite Htr. apply in_or_app. right. left. reflexivity.
  - exact Htr.
  - rewrite Hh0, finish_out.
    rewrite (completion_tokenized E fuel v (n_ctx E h) (b :: rest) nThreads maxTokens
               temp topP seed c toks Htok).
    reflexivity.
  - intros Hfuel. unfold go.
    match goal with
    | |- context [bind E ?m ?k ?c0] => destruct (bind_trace_prefix E m k c0) as (tl1 & ->)
    end.
    destruct fuel as [|fuel']; [lia|]. cbn [decode_prompt].
    destruct (0 <? n_prompt) eqn:Hpos; [|apply Z.ltb_ge in Hpos; lia].
    match goal with
    | |- context [bind E ?m ?k ?c0] => destruct (bind_trace_prefix E m k c0) as (tl2 & ->)
    end.
    unfold int_sub. rewrite Z.sub_0_r.
    rewrite (wrap_int_small n_prompt) by (unfold INT_MIN, INT_MAX in *; lia).
    eexists _, _. cbn [call_decode snd app]. reflexivity.
  - intros n'. rewrite Hh, Hh0.
    pose proof (completion_n_ctx E fuel v n' (n_ctx E h) (b :: rest) nThreads maxTokens
                  temp topP seed c) as Hag.
    destruct (completion E fuel v n' (b :: rest) nThreads maxTokens temp topP seed c)
      as [[f1 c1] t1].
    destruct (completion E fuel v (n_ctx E h) (b :: rest) nThreads maxTokens temp topP seed c)
      as [[f2 c2] t2].
    destruct Hag as [Heq Hfil]. cbn [fst snd] in Heq, Hfil. injection Heq as -> ->.
    destruct f2; cbn; auto.
Qed.

(** The run on the small engine: 5 prompt tokens, budget 8, window 2.
    The warning is logged, the first batch decoded after it holds the
    first two prompt tokens, the call returns "cba"; and so does the same
    call with a window of 256. *)
Lemma capacity_overflow_only_warns_witness :
  let run := fun h' =>
    nativeCompletion Toy.engine 10 (Some h') (Some Toy.prompt_abcd) 0 8 f_zero f_zero (-1) in
  In (LOGW (MsgOverflow 5 8 2)) (r_trace Toy.engine (run (Toy.handle 2))) /\
  (exists tl,
      r_trace Toy.engine (run (Toy.handle 2)) =
      setup_events Toy.engine 0 8 f_zero f_zero (-1) 5 ++
      LOGW (MsgOverflow 5 8 2) :: Call_n_batch :: Call_decode [1; 97] 0 :: tl) /\
  r_out Toy.engine (run (Toy.handle 2)) = Returned ["c"%byte; "b"%byte; "a"%byte] /\
  r_out Toy.engine (run (with_n_ctx Toy.engine (Toy.handle 2) 256)) =
    Returned ["c"%byte; "b"%byte; "a"%byte].
Proof.
  pose proof (capacity_overflow_only_warns Toy.engine 10 (Toy.handle 2) _ tt tt
                "a"%byte ["b"%byte; "c"%byte; "d"%byte] 0 8 f_zero f_zero (-1)
                [1; 97; 98; 99; 100] eq_refl eq_refl eq_refl eq_refl
                ltac:(unfold INT_MAX; cbn; lia) ltac:(cbn; lia)) as H.
  cbv zeta in H. destruct H as (Hin & Htr & Hout & _ & Hsame).
  cbv zeta.
  split; [exact Hin|]. split; [eexists; exact Htr|]. split; [exact Hout|].
  exact (eq_trans (proj1 (Hsame 256)) Hout).
Defined.

(** C10. Whatever [maxTokens] is, a call samples at most
    [max(1, maxTokens)] tokens; and with [maxTokens <= 0] the call is not
    rejected: it samples at most one token, and it returns the same text,
    leaves the same handle and makes the same engine calls as with
    [maxTokens = 1]. *)
Theorem generation_budget_normalized (E : Engine) (fuel : nat)
    (jHandle : option (LlamaHandle E)) (cprompt : option std_string)
    (nThreads maxTokens : Z) (temp topP : jfloat) (seed : Z) :
  let run := fun mt =>
    nativeCompletion E fuel jHandle cprompt nThreads mt temp topP seed in
  Z.of_nat (length (samples (r_trace E (run maxTokens)))) <= Z.max 1 maxTokens /\
  (maxTokens <= 0 ->
   (length (samples (r_trace E (run maxTokens))) <= 1)%nat /\
   r_out E (run maxTokens) = r_out E (run 1) /\
   r_handle E (run maxTokens) = r_handle E (run 1) /\
   calls (r_trace E (run maxTokens)) = calls (r_trace E (run 1))).
Proof.
  intros run. subst run. cbv beta. split; [apply nativeCompletion_budget|].
  intros Hle. split.
  - pose proof (nativeCompletion_budget E fuel jHandle cprompt nThreads maxTokens
                  temp topP seed). lia.
  - destruct (nativeCompletion_cases E jHandle cprompt)
      as [(ev & Hlog & Hr)|(h & c & m & v & b & rest & Hh & Hc & Hm & Hv & Hp & Hr)];
      rewrite !Hr.
    + auto.
    + apply (finish_agree E (fun ev => negb (is_log ev))).
      apply completion_max_tokens.
      rewrite !std_max_spec. lia.
Qed.

(** The run on the small engine with [maxTokens = 0]: one token is sampled
    and its text, "b", is returned. *)
Lemma generation_budget_normalized_witness :
  let r := nativeCompletion Toy.engine 10 (Some (Toy.handle 256)) (Some Toy.prompt_c)
             0 0 f_zero f_zero (-1) in
  samples (r_trace Toy.engine r) = [98] /\
  r_out Toy.engine r = Returned ["b"%byte].
Proof.
  split; [reflexivity|].
  destruct (generation_budget_normalized Toy.engine 10 (Some (Toy.handle 256))
              (Some Toy.prompt_c) 0 0 f_zero f_zero (-1)) as (_ & H).
  destruct (H ltac:(lia)) as (_ & Hout & _).
  rewrite Hout. reflexivity.
Defined.

(** ** The prompt loop decodes the prompt chunk by chunk *)

Section Chunks.

Context (E : Engine).

Lemma firstn_min_length {A} (a : nat) (l : list A) :
  firstn (Nat.min a (length l)) l = firstn a l.
Proof.
  destruct (Nat.le_gt_cases a (length l)) as [H|H].
  - now rewrite Nat.min_l.
  - rewrite Nat.min_r by lia. rewrite firstn_all, firstn_all2 by lia. reflexivity.
Qed.

Lemma chunks_fuel_concat {A} (B : nat) :
  (1 <= B)%nat ->
  forall fuel (l : list A), (length l <= fuel)%nat -> concat (chunks_fuel fuel B l) = l.
Proof.
  intros HB. induction fuel as [|fuel IH]; intros [|x l] Hlen; cbn in Hlen; try reflexivity.
  - lia.
  - cbn [chunks_fuel concat]. rewrite IH.
    + apply firstn_skipn.
    + rewrite length_skipn. cbn [length]. lia.
Qed.

Lemma chunks_fuel_bounds {A} (B : nat) :
  (1 <= B)%nat ->
  forall fuel (l : list A),
    Forall (fun ch => (1 <= length ch <= B)%nat) (chunks_fuel fuel B l).
Proof.
  intros HB. induction fuel as [|fuel IH]; intros [|x l]; cbn [chunks_fuel];
    try constructor.
  - rewrite length_firstn. cbn [length]. lia.
  - apply IH.
Qed.

Lemma bind_ext {A B} (m : M E A) (k1 k2 : A -> M E B) (c : llama_context E) :
  (forall a c', k1 a c' = k2 a c') -> bind E m k1 c = bind E m k2 c.
Proof.
  intros H. unfold bind. destruct (m c) as [[[a|s|] c1] t1]; try reflexivity.
  now rewrite H.
Qed.

(** With a batch capacity of at least 1 and indices that fit an [int], the
    loop of lines 202-209 is the in-order decoding of the chunks. *)
Lemma decode_prompt_chunks (toks : list llama_token) (n B : Z) :
  n = Z.of_nat (length toks) ->
  1 <= B ->
  n + B <= INT_MAX ->
  forall fuel fuel' i c,
    0 <= i ->
    (Z.to_nat (n - i) <= fuel)%nat ->
    (length (skipn (Z.to_nat i) toks) <= fuel')%nat ->
    decode_prompt E fuel toks n B i c =
    eval_chunks E (chunks_fuel fuel' (Z.to_nat B) (skipn (Z.to_nat i) toks)) c.
Proof.
  intros Hn HB Hfit.
  assert (Hdone : forall fuel' i c, n <= i -> 0 <= i ->
            pure E tt c =
            eval_chunks E (chunks_fuel fuel' (Z.to_nat B) (skipn (Z.to_nat i) toks)) c).
  { intros fuel' i c Hi Hi0. rewrite skipn_all2 by lia. destruct fuel'; reflexivity. }
  induction fuel as [|fuel IH]; intros fuel' i c Hi Hfuel Hfuel'; cbn [decode_prompt].
  - destruct (i <? n) eqn:Hlt; [apply Z.ltb_lt in Hlt; lia|].
    apply Z.ltb_ge in Hlt. now apply Hdone.
  - destruct (i <? n) eqn:Hlt; [apply Z.ltb_lt in Hlt|apply Z.ltb_ge in Hlt; now apply Hdone].
    assert (Hl : length (skipn (Z.to_nat i) toks) = Z.to_nat (n - i))
      by (rewrite length_skipn; lia).
    destruct (skipn (Z.to_nat i) toks) as [|x l] eqn:Hskip; [cbn in Hl; lia|].
    destruct fuel' as [|fuel']; [cbn in Hfuel'; lia|].
    cbn [chunks_fuel eval_chunks].
    assert (Hbatch : llama_batch_get_one toks i (std_min B (int_sub n i)) =
                     firstn (Z.to_nat B) (x :: l)).
    { unfold llama_batch_get_one, int_sub.
      rewrite wrap_int_small by (unfold INT_MIN, INT_MAX in *; lia).
      rewrite std_min_spec, Hskip, <- (firstn_min_length (Z.to_nat B) (x :: l)), Hl.
      f_equal. lia. }
    rewrite Hbatch. apply bind_ext. intros st c'.
    destruct (negb (st =? 0)); [reflexivity|].
    unfold int_add. rewrite wrap_int_small by (unfold INT_MIN, INT_MAX in *; lia).
    assert (Hnext : skipn (Z.to_nat (i + B)) toks = skipn (Z.to_nat B) (x :: l)).
    { rewrite <- Hskip, skipn_skipn. f_equal. lia. }
    rewrite <- Hnext. apply IH; [lia | lia |].
    rewrite Hnext, length_skipn. cbn [length] in Hfuel' |- *. lia.
Qed.

(** What decoding a list of chunks leaves in the trace: every chunk, in
    order, or the chunks up to the first one that fails, whose failure
    is logged and ends the call with the empty string. *)
Lemma eval_chunks_run (chs : list (list llama_token)) :
  forall c f c' t,
    eval_chunks E chs c = (f, c', t) ->
    (f = Go tt /\ t = map (fun ch => Call_decode ch 0) chs) \/
    (exists j ch st,
        nth_error chs j = Some ch /\ st <> 0 /\ f = Done [] /\
        t = map (fun ch => Call_decode ch 0) (firstn j chs) ++
            [Call_decode ch st; LOGE MsgPromptDecodeFailed]).
Proof.
  induction chs as [|ch chs IH]; intros c f c' t Hrun.
  - left. injection Hrun as <- <- <-. split; reflexivity.
  - cbn [eval_chunks] in Hrun. unfold bind at 1 in Hrun. unfold call_decode at 1 in Hrun.
    destruct (fst (llama_decode E c ch) =? 0) eqn:Hst; cbn [negb] in Hrun.
    + apply Z.eqb_eq in Hst. rewrite Hst in Hrun.
      destruct (eval_chunks E chs (snd (llama_decode E c ch))) as [[f1 c1] t1] eqn:Hrest.
      injection Hrun as <- <- <-.
      destruct (IH _ _ _ _ Hrest) as [(Hf & Ht)|(j & ch' & st & Hj & Hne & Hf & Ht)].
      * left. subst. split; reflexivity.
      * right. exists (S j), ch', st. subst. repeat split; auto.
    + apply Z.eqb_neq in Hst. cbn in Hrun. injection Hrun as <- <- <-.
      right. exists 0%nat, ch, (fst (llama_decode E c ch)).
      repeat split; auto.
Qed.

Lemma sample_text_starts (v : llama_vocab E) (maxTokens : Z) (temp topP : jfloat)
    (seed : Z) (c : llama_context E) :
  exists tl, snd (sample_text E v maxTokens temp topP seed c) = Call_chain_init :: tl.
Proof.
  unfold sample_text. cbv zeta.
  match goal with
  | |- context [bind E ?m ?k c] => destruct (bind_trace_prefix E m k c) as (tl & ->)
  end.
  unfold build_sampler. cbv zeta.
  match goal with
  | |- context [bind E ?m ?k c] => destruct (bind_trace_prefix E m k c) as (tl' & ->)
  end.
  eexists. reflexivity.
Qed.

Lemma load_n_batch (jNCtx : Z) :
  is_jint jNCtx ->
  cp_n_batch (load_context_params E jNCtx) =
  Z.min 512 (if jNCtx >? 0 then jNCtx else 2048).
Proof.
  unfold is_jint, INT_MIN, INT_MAX, load_context_params. cbn [cp_n_batch]. intros H.
  rewrite std_min_spec. destruct (jNCtx >? 0) eqn:Hpos; [|reflexivity].
  rewrite Z.gtb_ltb in Hpos. apply Z.ltb_lt in Hpos.
  unfold to_uint32. rewrite Z.mod_small by lia. reflexivity.
Qed.

(** With a batch capacity of at least 1, indices that fit an [int] and
    fuel for the prompt, the first decodes of a call are the chunks of
    the token buffer, in order, up to the first that fails. *)
Lemma completion_chunks (fuel : nat) (v : llama_vocab E) (h_n_ctx : Z)
    (prompt : std_string) (nThreads maxTokens : Z) (temp topP : jfloat) (seed : Z)
    (c : llama_context E) (toks : list llama_token) :
  prompt_tokens E v prompt = Some toks ->
  1 <= llama_n_batch E (prepared E c nThreads) ->
  Z.of_nat (length toks) + llama_n_batch E (prepared E c nThreads) <= INT_MAX ->
  (length toks <= fuel)%nat ->
  let chs := chunks (Z.to_nat (llama_n_batch E (prepared E c nThreads))) toks in
  let x := completion E fuel v h_n_ctx prompt nThreads maxTokens temp topP seed c in
  exists pre,
    decodes pre = [] /\
    ((exists tl,
         snd x = pre ++ map (fun ch => Call_decode ch 0) chs ++ Call_chain_init :: tl) \/
     (exists j ch st,
         nth_error chs j = Some ch /\ st <> 0 /\
         snd x = pre ++ map (fun ch => Call_decode ch 0) (firstn j chs) ++
                 [Call_decode ch st; LOGE MsgPromptDecodeFailed] /\
         fst (fst x) = Done [])).
Proof.
  intros Htok HB Hfit Hfuel chs x. subst x.
  rewrite (completion_tokenized E fuel v h_n_ctx prompt nThreads maxTokens
             temp topP seed c toks Htok).
  cbn [fst snd].
  set (c2 := prepared E c nThreads) in *.
  set (B := llama_n_batch E c2) in *.
  rewrite (wrap_int_small B) by (unfold INT_MIN, INT_MAX in *; lia).
  exists (setup_events E nThreads maxTokens temp topP seed (Z.of_nat (length toks)) ++
          snd (check_capacity E (Z.of_nat (length toks)) (std_max 1 maxTokens)
                 h_n_ctx c2) ++ [Call_n_batch]).
  split.
  { rewrite !decodes_app.
    replace (decodes (snd (check_capacity E (Z.of_nat (length toks))
                             (std_max 1 maxTokens) h_n_ctx c2)))
      with (@nil (list llama_token * Z))
      by (unfold check_capacity; destruct (_ >? h_n_ctx); reflexivity).
    reflexivity. }
  unfold bind.
  rewrite (decode_prompt_chunks toks (Z.of_nat (length toks)) B eq_refl
             HB Hfit fuel (length toks) 0 c2 ltac:(lia) ltac:(lia)
             ltac:(cbn; lia)).
  change (chunks_fuel (length toks) (Z.to_nat B) (skipn (Z.to_nat 0) toks)) with chs.
  destruct (eval_chunks E chs c2) as [[f c3] t] eqn:Hrun.
  destruct (eval_chunks_run chs c2 f c3 t Hrun)
    as [(-> & ->)|(j & ch & st & Hj & Hst & -> & ->)].
  - left.
    destruct (sample_text_starts v maxTokens temp topP seed c3) as (tl & Htl).
    destruct (sample_text E v maxTokens temp topP seed c3) as [[f4 c4] t4].
    cbn [snd] in Htl. subst t4. exists tl. cbn [fst snd]. list_norm. reflexivity.
  - right. exists j, ch, st. cbn [fst snd]. repeat split; auto.
    list_norm. reflexivity.
Qed.

End Chunks.

(** C6. Let the engine report the batch capacity [nativeLoadModel]
    configured, [B = min(512, window)], and let the prompt's indices fit
    an [int].  Then the prompt tokens are cut into consecutive chunks of at
    least 1 and at most [B] tokens, and the chunks are decoded in that
    order by the first decodes of the call: either all of them, after
    which the sampler chain is set up, or up to the first chunk whose
    decode fails; the call then logs the failure, does nothing more and
    returns the empty string. *)
Theorem prompt_decoded_in_chunks (E : Engine) (fuel : nat) (h : LlamaHandle E)
    (c : llama_context E) (m : llama_model E) (v : llama_vocab E)
    (b : byte) (rest : std_string) (nThreads maxTokens : Z) (temp topP : jfloat)
    (seed jNCtx : Z) (toks : list llama_token) :
  ctx E h = Some c -> model E h = Some m -> vocab E h = Some v ->
  prompt_tokens E v (b :: rest) = Some toks ->
  is_jint jNCtx ->
  llama_n_batch E (prepared E c nThreads) = cp_n_batch (load_context_params E jNCtx) ->
  Z.of_nat (length toks) + 512 <= INT_MAX ->
  (length toks <= fuel)%nat ->
  let B := Z.min 512 (if jNCtx >? 0 then jNCtx else 2048) in
  let chs := chunks (Z.to_nat B) toks in
  let r := nativeCompletion E fuel (Some h) (Some (b :: rest)) nThreads maxTokens
             temp topP seed in
  concat chs = toks /\
  Forall (fun ch => (1 <= length ch)%nat /\ Z.of_nat (length ch) <= B) chs /\
  exists pre,
    decodes pre = [] /\
    ((exists tl,
         r_trace E r = pre ++ map (fun ch => Call_decode ch 0) chs ++ Call_chain_init :: tl) \/
     (exists j ch st,
         nth_error chs j = Some ch /\ st <> 0 /\
         r_trace E r = pre ++ map (fun ch => Call_decode ch 0) (firstn j chs) ++
                       [Call_decode ch st; LOGE MsgPromptDecodeFailed] /\
         r_out E r = Returned [])).
Proof.
  intros Hc Hm Hv Htok HjN Hnb Hfit Hfuel B chs r.
  assert (HB : 1 <= B <= 512).
  { unfold B, is_jint, INT_MIN, INT_MAX in *.
    destruct (jNCtx >? 0) eqn:Hpos; [|lia].
    rewrite Z.gtb_ltb in Hpos. apply Z.ltb_lt in Hpos. lia. }
  split; [|split].
  - apply chunks_fuel_concat; lia.
  - eapply Forall_impl; [|apply (chunks_fuel_bounds (Z.to_nat B)); lia].
    cbv beta. intros ch Hch. split; lia.
  - assert (Hr : r = finish E h
        (completion E fuel v (n_ctx E h) (b :: rest) nThreads maxTokens temp topP seed c)).
    { unfold r, nativeCompletion. rewrite Hc, Hm, Hv. reflexivity. }
    rewrite Hr, finish_trace, finish_out.
    rewrite (completion_tokenized E fuel v (n_ctx E h) (b :: rest) nThreads maxTokens
               temp topP seed c toks Htok).
    cbn [fst snd].
    rewrite Hnb, (load_n_batch E jNCtx HjN). fold B.
    rewrite (wrap_int_small B) by (unfold INT_MIN, INT_MAX; lia).
    set (c2 := prepared E c nThreads).
    exists (setup_events E nThreads maxTokens temp topP seed (Z.of_nat (length toks)) ++
            snd (check_capacity E (Z.of_nat (length toks)) (std_max 1 maxTokens)
                   (n_ctx E h) c2) ++ [Call_n_batch]).
    split.
    { rewrite !decodes_app.
      replace (decodes (snd (check_capacity E (Z.of_nat (length toks))
                               (std_max 1 maxTokens) (n_ctx E h) c2)))
        with (@nil (list llama_token * Z))
        by (unfold check_capacity; destruct (_ >? n_ctx E h); reflexivity).
      reflexivity. }
    unfold bind.
    rewrite (decode_prompt_chunks E toks (Z.of_nat (length toks)) B eq_refl
               (proj1 HB) ltac:(lia) fuel (length toks) 0 c2 ltac:(lia) ltac:(lia)
               ltac:(cbn; lia)).
    change (chunks_fuel (length toks) (Z.to_nat B) (skipn (Z.to_nat 0) toks)) with chs.
    destruct (eval_chunks E chs c2) as [[f c3] t] eqn:Hrun.
    destruct (eval_chunks_run E chs c2 f c3 t Hrun)
      as [(-> & ->)|(j & ch & st & Hj & Hst & -> & ->)].
    + left.
      destruct (sample_text_starts E v maxTokens temp topP seed c3) as (tl & Htl).
      destruct (sample_text E v maxTokens temp topP seed c3) as [[f4 c4] t4].
      cbn [snd] in Htl. subst t4. exists tl. cbn [fst snd]. list_norm. reflexivity.
    + right. exists j, ch, st. cbn [fst snd]. repeat split; auto.
      list_norm. reflexivity.
Qed.

(** The runs on the small engine with a window of 2 tokens: the five
    tokens of "abcd" go in three chunks; and the prompt "x", whose only
    chunk fails to decode, returns the empty string. *)
Lemma prompt_decoded_in_chunks_witness :
  chunks 2 (Toy.tokens_of Toy.prompt_abcd) = [[1; 97]; [98; 99]; [100]] /\
  decodes (r_trace Toy.engine
    (nativeCompletion Toy.engine 5 (Some (Toy.handle 2)) (Some Toy.prompt_abcd)
       0 1 f_zero f_zero (-1))) =
  [([1; 97], 0); ([98; 99], 0); ([100], 0); ([99], 0)] /\
  r_out Toy.engine
    (nativeCompletion Toy.engine 5 (Some (Toy.handle 2)) (Some Toy.prompt_x)
       0 1 f_zero f_zero (-1)) = Returned [].
Proof.
  split; [reflexivity|]. split; [reflexivity|].
  destruct (prompt_decoded_in_chunks Toy.engine 5 (Toy.handle 2) _ tt tt
              "x"%byte [] 0 1 f_zero f_zero (-1) 2 [1; 120]
              eq_refl eq_refl eq_refl eq_refl
              ltac:(unfold is_jint, INT_MIN, INT_MAX; lia) eq_refl
              ltac:(unfold INT_MAX; cbn; lia) ltac:(cbn; lia))
    as (_ & _ & pre & _ & [(tl & Htr)|(j & ch & st & _ & _ & _ & Hout)]).
  - reflexivity.
  - exact Hout.
Defined.

(** ** Termination *)

Section Termination.

Context (E : Engine).

Lemma sample_text_returns (v : llama_vocab E) (maxTokens : Z) (temp topP : jfloat)
    (seed : Z) (c : llama_context E) :
  fst (fst (sample_text E v maxTokens temp topP seed c)) <> Spin.
Proof.
  unfold sample_text, build_sampler. cbv zeta.
  unfold bind at 1. unfold bind at 1. unfold emit at 1.
  destruct (llama_sampler_chain_init E) as [smpl|]; [|cbn; discriminate].
  unfold bind at 1.
  assert (Hadd : exists smpl',
    add_stages E smpl (normalize_temp temp) (normalize_top_p topP) (sampler_seed E seed) c =
    (Go smpl', c, map Call_chain_add (sampler_stages E temp topP seed))).
  { unfold add_stages, sampler_stages, bind, call_chain_add.
    destruct (SFeqb (normalize_temp temp) f_zero); eexists; reflexivity. }
  destruct Hadd as (smpl' & ->).
  unfold bind at 1. unfold emit at 1. unfold pure at 1. unfold bind at 1.
  destruct (generate_gen_trace E v (Z.to_nat (std_max 1 maxTokens)) 0
              (llama_sampler_reset E smpl') [] c) as (g & c' & tr & -> & _).
  cbn. discriminate.
Qed.

Lemma completion_untokenized (fuel : nat) (v : llama_vocab E) (h_n_ctx : Z)
    (prompt : std_string) (nThreads maxTokens : Z) (temp topP : jfloat) (seed : Z)
    (c : llama_context E) :
  prompt_tokens E v prompt = None ->
  fst (fst (completion E fuel v h_n_ctx prompt nThreads maxTokens temp topP seed c)) = Done [].
Proof.
  unfold prompt_tokens, completion. cbv zeta. intros Htok.
  unfold bind at 1. rewrite clear_memory_cleared.
  unfold bind at 1. unfold call_set_n_threads at 1.
  unfold bind at 1. unfold emit at 1.
  unfold bind at 1. unfold call_tokenize at 1. cbn [fst].
  destruct (_ <=? 0); [reflexivity|].
  unfold bind at 1. unfold call_tokenize at 1. cbn [fst snd].
  destruct (fst _ <? 0); [reflexivity | discriminate Htok].
Qed.

(** X17. A call returns as soon as the fuel covers the prompt's tokens,
    when the engine reports a batch capacity of at least 1 and the indices
    of the prompt loop fit an [int]. *)
Lemma nativeCompletion_returns (fuel : nat) (jHandle : option (LlamaHandle E))
    (cprompt : option std_string) (nThreads maxTokens : Z) (temp topP : jfloat) (seed : Z) :
  (forall h c v prompt toks,
      jHandle = Some h -> ctx E h = Some c -> vocab E h = Some v ->
      cprompt = Some prompt -> prompt_tokens E v prompt = Some toks ->
      1 <= llama_n_batch E (prepared E c nThreads) /\
      Z.of_nat (length toks) + llama_n_batch E (prepared E c nThreads) <= INT_MAX /\
      (length toks <= fuel)%nat) ->
  exists s,
    r_out E (nativeCompletion E fuel jHandle cprompt nThreads maxTokens temp topP seed) =
    Returned s.
Proof.
  intros Hengine.
  destruct (nativeCompletion_cases E jHandle cprompt)
    as [(ev & Hlog & Hr)|(h & c & m & v & b & rest & Hh & Hc & Hm & Hv & Hp & Hr)];
    rewrite Hr.
  - exists []. reflexivity.
  - rewrite finish_out.
    destruct (prompt_tokens E v (b :: rest)) as [toks|] eqn:Htok.
    + destruct (Hengine h c v (b :: rest) toks Hh Hc Hv Hp Htok) as (HB & Hfit & Hfuel).
      rewrite (completion_tokenized E fuel v (n_ctx E h) (b :: rest) nThreads maxTokens
                 temp topP seed c toks Htok).
      cbn [fst snd].
      set (c2 := prepared E c nThreads) in *.
      rewrite (wrap_int_small (llama_n_batch E c2))
        by (unfold INT_MIN, INT_MAX in *; lia).
      unfold bind.
      rewrite (decode_prompt_chunks E toks (Z.of_nat (length toks)) (llama_n_batch E c2)
                 eq_refl HB Hfit fuel (length toks) 0 c2 ltac:(lia) ltac:(lia)
                 ltac:(cbn; lia)).
      destruct (eval_chunks E _ c2) as [[f c3] t] eqn:Hrun.
      destruct (eval_chunks_run E _ c2 f c3 t Hrun)
        as [(-> & ->)|(j & ch & st & Hj & Hst & -> & ->)].
      * pose proof (sample_text_returns v maxTokens temp topP seed c3) as Hns.
        destruct (sample_text E v maxTokens temp topP seed c3) as [[[s|s|] c4] t4];
          cbn [fst snd] in *;
          [exists (toJStr s) | exists (toJStr s) | contradiction]; reflexivity.
      * exists []. reflexivity.
    + rewrite (completion_untokenized fuel v (n_ctx E h) (b :: rest) nThreads maxTokens
                 temp topP seed c Htok).
      exists []. reflexivity.
Qed.

End Termination.

(** * Further properties of the bridge *)

(** ** Projections of traces *)

Lemma flat_map_none {A B} (f : A -> list B) (l : list A) :
  Forall (fun a => f a = []) l -> flat_map f l = [].
Proof. induction 1 as [|a l Ha _ IH]; cbn; [reflexivity | now rewrite Ha, IH]. Qed.

Lemma filter_none {A} (f : A -> bool) (l : list A) :
  Forall (fun a => f a = false) l -> filter f l = [].
Proof. induction 1 as [|a l Ha _ IH]; cbn; [reflexivity | now rewrite Ha]. Qed.

Lemma accepts_app (a b : list Event) : accepts (a ++ b) = accepts a ++ accepts b.
Proof. apply flat_map_app. Qed.

(** ** The generation loop, further *)

Section GenerationMore.

Context (E : Engine) (v : llama_vocab E).

(** The output of the loop is the text of the sampled tokens that are not
    end-of-generation tokens, whatever ended the loop. *)
Lemma gen_trace_output t out tr out' :
  gen_trace E v t out tr out' ->
  out' = out ++ concat (map (piece_of E v) (filter (not_eog E v) (samples tr))).
Proof.
  unfold not_eog.
  induction 1 as [t out | t out tok Heog | t out tok st Heog Hst
                 | t out tok tr out' Heog Hgen IH].
  - cbn. now rewrite app_nil_r.
  - cbn. rewrite Heog. cbn. now rewrite app_nil_r.
  - cbn. rewrite Heog. cbn. now rewrite app_nil_r.
  - rewrite IH. unfold samples. cbn. rewrite Heog. cbn. now rewrite <- app_assoc.
Qed.

(** The tokens accepted into the sampler are the sampled tokens that are
    not end-of-generation tokens, and each is decoded, alone, right after:
    the batches of the loop are the accepted tokens, one by one. *)
Lemma gen_trace_accepts t out tr out' :
  gen_trace E v t out tr out' ->
  accepts tr = filter (not_eog E v) (samples tr) /\
  map fst (decodes tr) = map (fun tok => [tok]) (accepts tr).
Proof.
  unfold not_eog.
  induction 1 as [t out | t out tok Heog | t out tok st Heog Hst
                 | t out tok tr out' Heog Hgen [IH1 IH2]].
  - split; reflexivity.
  - cbn. rewrite Heog. split; reflexivity.
  - cbn. rewrite Heog. split; reflexivity.
  - unfold accepts, samples, decodes in *. cbn. rewrite Heog. cbn.
    split; [rewrite IH1 | rewrite IH2]; reflexivity.
Qed.

Lemma gen_trace_events t out tr out' :
  gen_trace E v t out tr out' -> Forall (fun ev => is_gen_event ev = true) tr.
Proof.
  induction 1; repeat (constructor; try reflexivity). assumption.
Qed.

(** The loop ends for one of three reasons only: the budget is used up,
    an end-of-generation token was sampled, or an error was logged. *)
Lemma generate_stops (n : nat) :
  forall t smpl out c,
    let tr := snd (generate E n t v smpl out c) in
    length (samples tr) = n \/
    existsb (llama_vocab_is_eog E v) (samples tr) = true \/
    errors tr <> [].
Proof.
  induction n as [|n IH]; intros t smpl out c; [left; reflexivity|].
  cbn [generate]. unfold bind, call_sample, call_is_eog, emit, call_token_to_piece,
    call_decode, pure.
  set (r := llama_sampler_sample E smpl c (-1)).
  destruct (llama_vocab_is_eog E v (fst r)) eqn:Heog.
  - right. left. cbn. now rewrite Heog.
  - destruct (fst (llama_decode E c [fst r]) =? 0) eqn:Hst; cbn [negb].
    + match goal with
      | |- context [generate E n ?t' v ?s' ?o' ?c'] =>
          specialize (IH t' s' o' c'); destruct (generate E n t' v s' o' c') as [[g c2] tr]
      end.
      cbn [snd] in IH |- *. unfold samples, errors in *. cbn. rewrite Heog. cbn.
      destruct IH as [IH|[IH|IH]]; auto.
    + right. right. cbn. discriminate.
Qed.

End GenerationMore.

(** ** The phases of a call *)

Section Phases.

Context (E : Engine).

(** The prompt loop leaves successful decodes only, followed, when it
    leaves the function, by the failed decode and its error line. *)
Lemma decode_prompt_run (fuel : nat) (toks : list llama_token) (n nb : Z) :
  forall i c,
  exists ds c',
    Forall (fun ev => is_ok_decode ev = true) ds /\
    (decode_prompt E fuel toks n nb i c = (Go tt, c', ds) \/
     decode_prompt E fuel toks n nb i c = (Spin, c', ds) \/
     exists b st, st <> 0 /\
       decode_prompt E fuel toks n nb i c =
       (Done [], c', ds ++ [Call_decode b st; LOGE MsgPromptDecodeFailed])).
Proof.
  induction fuel as [|fuel IH]; intros i c; cbn [decode_prompt].
  - exists [], c. split; [constructor|]. destruct (i <? n); auto.
  - destruct (i <? n); [|exists [], c; split; [constructor | auto]].
    unfold bind, call_decode, emit, exit_with.
    set (batch := llama_batch_get_one toks i (std_min nb (int_sub n i))).
    destruct (fst (llama_decode E c batch) =? 0) eqn:Hst; cbn [negb].
    + destruct (IH (int_add i nb) (snd (llama_decode E c batch)))
        as (ds & c' & Hds & [H|[H|(b & st & Hne & H)]]); rewrite H;
        exists (Call_decode batch (fst (llama_decode E c batch)) :: ds), c';
        (split; [constructor; [exact Hst | exact Hds]|]); auto.
      right. right. exists b, st. split; [assumption | reflexivity].
    + apply Z.eqb_neq in Hst.
      exists [], (snd (llama_decode E c batch)). split; [constructor|].
      right. right. exists batch, (fst (llama_decode E c batch)).
      split; [assumption | reflexivity].
Qed.

(** Lines 215-294 either fail to create the chain, or add the stages,
    reset the chain, run the loop and free the chain. *)
Lemma sample_text_run (v : llama_vocab E) (maxTokens : Z) (temp topP : jfloat)
    (seed : Z) (c : llama_context E) :
  (llama_sampler_chain_init E = None /\
   sample_text E v maxTokens temp topP seed c =
   (Done [], c, [Call_chain_init; LOGE MsgChainInitFailed])) \/
  (exists gtr out c',
      llama_sampler_chain_init E <> None /\
      sample_text E v maxTokens temp topP seed c =
      (Go out, c',
       [Call_chain_init] ++ map Call_chain_add (sampler_stages E temp topP seed) ++
       [Call_sampler_reset] ++ gtr ++ [Call_sampler_free]) /\
      gen_trace E v 0 [] gtr out /\
      (length (samples gtr) <= Z.to_nat (std_max 1 maxTokens))%nat /\
      (length (samples gtr) = Z.to_nat (std_max 1 maxTokens) \/
       existsb (llama_vocab_is_eog E v) (samples gtr) = true \/
       errors gtr <> [])).
Proof.
  unfold sample_text, build_sampler. cbv zeta.
  destruct (llama_sampler_chain_init E) as [smpl|]; [right | left; split; reflexivity].
  assert (Hadd : exists smpl',
    add_stages E smpl (normalize_temp temp) (normalize_top_p topP) (sampler_seed E seed) c =
    (Go smpl', c, map Call_chain_add (sampler_stages E temp topP seed))).
  { unfold add_stages, sampler_stages, bind, call_chain_add.
    destruct (SFeqb (normalize_temp temp) f_zero); eexists; reflexivity. }
  destruct Hadd as (smpl' & Hadd).
  pose proof (generate_stops E v (Z.to_nat (std_max 1 maxTokens)) 0
                (llama_sampler_reset E smpl') [] c) as Hstop.
  destruct (generate_gen_trace E v (Z.to_nat (std_max 1 maxTokens)) 0
              (llama_sampler_reset E smpl') [] c) as (g & c' & gtr & Hgen & Hgt & Hlen).
  rewrite Hgen in Hstop. cbv zeta in Hstop. cbn [snd] in Hstop.
  exists gtr, (snd g), c'. split; [discriminate|]. split; [|auto].
  unfold bind at 1. unfold bind at 1. unfold emit at 1.
  unfold bind at 1. rewrite Hadd.
  unfold bind at 1. unfold emit at 1. unfold pure at 1.
  unfold bind at 1. rewrite Hgen.
  unfold bind, emit, pure. cbn [fst snd]. f_equal.
  list_norm. reflexivity.
Qed.

(** Every run of [completion] has one of the six shapes of
    [call_anatomy], for the token count the first [llama_tokenize] gave. *)
Lemma completion_anatomy (fuel : nat) (v : llama_vocab E) (h_n_ctx : Z)
    (prompt : std_string) (nThreads maxTokens : Z) (temp topP : jfloat) (seed : Z)
    (c : llama_context E) :
  let n := int_neg (fst (llama_tokenize E v prompt (wrap_int (Z.of_nat (length prompt)))
                           false 0 true true)) in
  let x := completion E fuel v h_n_ctx prompt nThreads maxTokens temp topP seed c in
  call_anatomy E v nThreads maxTokens temp topP seed h_n_ctx n
    (outcome_of (fst (fst x))) (snd x).
Proof.
  intros n x. remember x as y eqn:Hy. unfold x in Hy. clear x.
  unfold completion in Hy.
  unfold bind at 1 in Hy. rewrite clear_memory_cleared in Hy.
  unfold bind at 1 in Hy. unfold call_set_n_threads at 1 in Hy.
  unfold bind at 1 in Hy. unfold emit at 1 in Hy.
  unfold bind at 1 in Hy. unfold call_tokenize at 1 in Hy. cbn [fst] in Hy. fold n in Hy.
  set (c2 := llama_set_n_threads E (cleared E c) _ _) in Hy.
  destruct (n <=? 0) eqn:Hn.
  { apply Z.leb_le in Hn. unfold bind, emit, exit_with in Hy. subst y.
    cbn [fst snd outcome_of].
    replace (clear_events ++ _) with
      (head_events E nThreads maxTokens temp topP seed ++ [LOGW MsgTokenizeNone])
      by (unfold head_events; list_norm; reflexivity).
    now apply an_no_token. }
  apply Z.leb_gt in Hn.
  unfold bind at 1 in Hy. unfold call_tokenize at 1 in Hy. cbn [fst snd] in Hy.
  destruct (fst _ <? 0).
  { unfold bind, emit, exit_with in Hy. subst y. cbn [fst snd outcome_of].
    replace (clear_events ++ _) with
      (head_events E nThreads maxTokens temp topP seed ++
       [Call_tokenize n; LOGE MsgTokenizeFailed])
      by (unfold head_events; list_norm; reflexivity).
    now apply an_tokenize_failed. }
  unfold bind at 1 in Hy.
  assert (Hchk : forall c0, check_capacity E n (std_max 1 maxTokens) h_n_ctx c0 =
                 (Go tt, c0, capacity_events maxTokens h_n_ctx n)).
  { intros c0. unfold check_capacity, capacity_events. destruct (_ >? h_n_ctx); reflexivity. }
  rewrite Hchk in Hy.
  unfold bind at 1 in Hy. unfold call_n_batch at 1 in Hy.
  unfold bind at 1 in Hy.
  match type of Hy with
  | context [decode_prompt E fuel ?tk ?np ?nb 0 c2] =>
      destruct (decode_prompt_run fuel tk np nb 0 c2)
        as (ds & c3 & Hds & [H|[H|(b & st & Hst & H)]]); rewrite H in Hy
  end.
  - destruct (sample_text_run v maxTokens temp topP seed c3)
      as [(Hnone & Hs)|(gtr & out & c4 & Hsome & Hs & Hgt & Hlen & Hstop)];
      rewrite Hs in Hy; subst y; cbn [fst snd outcome_of].
    + replace (clear_events ++ _) with
        (body_events E nThreads maxTokens temp topP seed h_n_ctx n ++ ds ++
         [Call_chain_init; LOGE MsgChainInitFailed])
        by (unfold body_events, head_events; list_norm; reflexivity).
      now apply an_chain_failed.
    + replace (clear_events ++ _) with
        (body_events E nThreads maxTokens temp topP seed h_n_ctx n ++ ds ++
         [Call_chain_init] ++ map Call_chain_add (sampler_stages E temp topP seed) ++
         [Call_sampler_reset] ++ gtr ++ [Call_sampler_free])
        by (unfold body_events, head_events; list_norm; reflexivity).
      now apply an_generated.
  - subst y. cbn [fst snd outcome_of].
    replace (clear_events ++ _) with
      (body_events E nThreads maxTokens temp topP seed h_n_ctx n ++ ds)
      by (unfold body_events, head_events; list_norm; reflexivity).
    now apply an_out_of_fuel.
  - subst y. cbn [fst snd outcome_of].
    replace (clear_events ++ _) with
      (body_events E nThreads maxTokens temp topP seed h_n_ctx n ++ ds ++
       [Call_decode b st; LOGE MsgPromptDecodeFailed])
      by (unfold body_events, head_events; list_norm; reflexivity).
    now apply an_prompt_failed.
Qed.

End Phases.

(** ** The ways out of a call *)

Section Ways.

Context (E : Engine).

Lemma nativeCompletion_valid (fuel : nat) (h : LlamaHandle E) (c : llama_context E)
    (m : llama_model E) (v : llama_vocab E) (b : byte) (rest : std_string)
    (nThreads maxTokens : Z) (temp topP : jfloat) (seed : Z) :
  ctx E h = Some c -> model E h = Some m -> vocab E h = Some v ->
  nativeCompletion E fuel (Some h) (Some (b :: rest)) nThreads maxTokens temp topP seed =
  finish E h (completion E fuel v (n_ctx E h) (b :: rest) nThreads maxTokens temp topP seed c).
Proof. intros Hc Hm Hv. unfold nativeCompletion. now rewrite Hc, Hm, Hv. Qed.

Lemma finish_outcome (h : LlamaHandle E) x :
  r_out E (finish E h x) = outcome_of (fst (fst x)).
Proof. destruct x as [[[a|s|] c] tr]; reflexivity. Qed.

Lemma prompt_tokens_count (v : llama_vocab E) (prompt : std_string)
    (toks : list llama_token) :
  prompt_tokens E v prompt = Some toks ->
  announced_tokens E v prompt = Z.of_nat (length toks).
Proof.
  unfold prompt_tokens, announced_tokens.
  set (n := int_neg _).
  destruct (n <=? 0) eqn:Hn; [discriminate|]. apply Z.leb_gt in Hn.
  destruct (fst _ <? 0); [discriminate|].
  intros H. injection H as <-. now rewrite fill_buffer_length.
Qed.

End Ways.

(** X1. A call on a valid handle with a non-empty prompt leaves the
    function in one of six ways, and its trace has the shape of that way:
    the tokenizer announced no token; the second tokenizer pass failed; a
    prompt chunk failed to decode; the prompt loop was still running when
    the fuel ran out; the sampler chain could not be created; or the
    generation loop ran, in which case it stopped because the budget was
    used up, an end-of-generation token was sampled or an error was
    logged, and the sampler was freed last. *)
Theorem call_ends_in_one_of_six_ways (E : Engine) (fuel : nat) (h : LlamaHandle E)
    (c : llama_context E) (m : llama_model E) (v : llama_vocab E)
    (b : byte) (rest : std_string) (nThreads maxTokens : Z) (temp topP : jfloat)
    (seed : Z) :
  ctx E h = Some c -> model E h = Some m -> vocab E h = Some v ->
  let r := nativeCompletion E fuel (Some h) (Some (b :: rest)) nThreads maxTokens
             temp topP seed in
  call_anatomy E v nThreads maxTokens temp topP seed (n_ctx E h)
    (announced_tokens E v (b :: rest)) (r_out E r) (r_trace E r).
Proof.
  intros Hc Hm Hv r. subst r.
  rewrite (nativeCompletion_valid E fuel h c m v b rest nThreads maxTokens temp topP seed
             Hc Hm Hv), finish_outcome, finish_trace.
  apply completion_anatomy.
Qed.

(** The run on the small engine with prompt "c" and budget 1: the budget
    is used up after one token. *)
Lemma call_ends_in_one_of_six_ways_witness :
  call_anatomy Toy.engine tt 0 1 f_zero f_zero (-1) 256 2
    (Returned ["b"%byte])
    (r_trace Toy.engine
       (nativeCompletion Toy.engine 10 (Some (Toy.handle 256)) (Some Toy.prompt_c)
          0 1 f_zero f_zero (-1))).
Proof.
  exact (call_ends_in_one_of_six_ways Toy.engine 10 (Toy.handle 256) _ tt tt
           "c"%byte [] 0 1 f_zero f_zero (-1) eq_refl eq_refl eq_refl).
Defined.

(** ** What each part of a trace holds *)

Section Parts.

Context (E : Engine) (v : llama_vocab E).
Context (nThreads maxTokens : Z) (temp topP : jfloat) (seed h_n_ctx n : Z).

Lemma ok_decodes_quiet (ds : list Event) :
  Forall (fun ev => is_ok_decode ev = true) ds ->
  samples ds = [] /\ accepts ds = [] /\ chain_stages ds = [] /\ errors ds = [] /\
  Forall (fun d => snd d = 0) (decodes ds) /\
  filter is_sampler_free ds = [] /\ filter is_sampler_reset ds = [] /\
  filter is_set_n_threads ds = [] /\ filter is_memory_seq_rm ds = [] /\
  filter is_overflow_warning ds = [] /\ filter is_chain_init ds = [].
Proof.
  induction 1 as [|ev ds Hev _ IH]; [repeat split; constructor|].
  destruct IH as (H1 & H2 & H3 & H4 & H5 & H6 & H7 & H8 & H9 & H10 & H11).
  destruct ev; try discriminate Hev. cbn in Hev. apply Z.eqb_eq in Hev.
  unfold samples, accepts, chain_stages, errors, decodes in *. cbn.
  repeat split; auto.
Qed.

Lemma gen_events_quiet (gtr : list Event) :
  Forall (fun ev => is_gen_event ev = true) gtr ->
  chain_stages gtr = [] /\
  filter is_sampler_free gtr = [] /\ filter is_sampler_reset gtr = [] /\
  filter is_set_n_threads gtr = [] /\ filter is_memory_seq_rm gtr = [] /\
  filter is_overflow_warning gtr = [] /\ filter is_chain_init gtr = [].
Proof.
  induction 1 as [|ev gtr Hev _ IH]; [repeat split; constructor|].
  destruct IH as (H1 & H2 & H3 & H4 & H5 & H6 & H7).
  unfold chain_stages in *.
  destruct ev as [m|m|m| | | | | | | | | | | | | | | | | | |]; try discriminate Hev;
    cbn; auto 10.
Qed.

Lemma body_events_quiet :
  let body := body_events E nThreads maxTokens temp topP seed h_n_ctx n in
  samples body = [] /\ accepts body = [] /\ chain_stages body = [] /\ errors body = [] /\
  decodes body = [] /\
  filter is_sampler_free body = [] /\ filter is_sampler_reset body = [] /\
  filter is_chain_init body = [].
Proof.
  unfold body_events, head_events, capacity_events.
  destruct (_ >? h_n_ctx); repeat split; reflexivity.
Qed.

Lemma stages_quiet :
  let adds := map Call_chain_add (sampler_stages E temp topP seed) in
  samples adds = [] /\ accepts adds = [] /\ errors adds = [] /\ decodes adds = [] /\
  chain_stages adds = sampler_stages E temp topP seed /\
  filter is_sampler_free adds = [] /\ filter is_sampler_reset adds = [] /\
  filter is_set_n_threads adds = [] /\ filter is_memory_seq_rm adds = [] /\
  filter is_overflow_warning adds = [] /\ filter is_chain_init adds = [].
Proof.
  unfold sampler_stages. destruct (SFeqb _ _); repeat split; reflexivity.
Qed.

(** A call that did not reach the generation loop sampled and accepted
    nothing and returned the empty string, if it returned; a call that
    reached it has a trace cut in two by the reset of the sampler chain,
    the loop lying between the reset and the free. *)
Lemma anatomy_generated_or_not (o : Outcome) (tr : list Event) :
  call_anatomy E v nThreads maxTokens temp topP seed h_n_ctx n o tr ->
  (samples tr = [] /\ accepts tr = [] /\ chain_stages tr = [] /\
   filter is_sampler_free tr = [] /\ filter is_sampler_reset tr = [] /\
   (o = Returned [] \/ o = OutOfFuel)) \/
  (exists pre gtr out,
      tr = pre ++ Call_sampler_reset :: gtr ++ [Call_sampler_free] /\
      o = Returned (toJStr out) /\
      gen_trace E v 0 [] gtr out /\
      samples pre = [] /\ accepts pre = [] /\ errors pre = [] /\
      chain_stages pre = sampler_stages E temp topP seed /\
      Forall (fun d => snd d = 0) (decodes pre) /\
      filter is_sampler_free pre = [] /\ filter is_sampler_reset pre = [] /\
      (length (samples gtr) <= Z.to_nat (std_max 1 maxTokens))%nat /\
      (length (samples gtr) = Z.to_nat (std_max 1 maxTokens) \/
       existsb (llama_vocab_is_eog E v) (samples gtr) = true \/
       errors gtr <> []) /\
      llama_sampler_chain_init E <> None).
Proof.
  pose proof body_events_quiet as Hb. cbv zeta in Hb.
  destruct Hb as (Hb1 & Hb2 & Hb3 & Hb4 & Hb5 & Hb6 & Hb7 & Hb8).
  pose proof stages_quiet as Hs. cbv zeta in Hs.
  destruct Hs as (Hs1 & Hs2 & Hs3 & Hs4 & Hs5 & Hs6 & Hs7 & _).
  intros Han.
  destruct Han as [Hn | Hn | ds b st Hn Hds Hst | ds Hn Hds | ds Hn Hds Hinit
                  | ds gtr out Hn Hds Hinit Hgt Hlen Hstop].
  - left. unfold head_events. repeat split; auto.
  - left. unfold head_events. repeat split; auto.
  - left. destruct (ok_decodes_quiet ds Hds) as (H1 & H2 & H3 & H4 & H5 & H6 & H7 & _).
    rewrite !samples_app, !accepts_app, !chain_stages_app, !filter_app.
    rewrite Hb1, Hb2, Hb3, Hb6, Hb7, H1, H2, H3, H6, H7. repeat split; auto.
  - left. destruct (ok_decodes_quiet ds Hds) as (H1 & H2 & H3 & H4 & H5 & H6 & H7 & _).
    rewrite !samples_app, !accepts_app, !chain_stages_app, !filter_app.
    rewrite Hb1, Hb2, Hb3, Hb6, Hb7, H1, H2, H3, H6, H7. repeat split; auto.
  - left. destruct (ok_decodes_quiet ds Hds) as (H1 & H2 & H3 & H4 & H5 & H6 & H7 & _).
    rewrite !samples_app, !accepts_app, !chain_stages_app, !filter_app.
    rewrite Hb1, Hb2, Hb3, Hb6, Hb7, H1, H2, H3, H6, H7. repeat split; auto.
  - right. destruct (ok_decodes_quiet ds Hds) as (H1 & H2 & H3 & H4 & H5 & H6 & H7 & _).
    exists (body_events E nThreads maxTokens temp topP seed h_n_ctx n ++ ds ++
            [Call_chain_init] ++ map Call_chain_add (sampler_stages E temp topP seed)),
      gtr, out.
    split; [list_norm; reflexivity|].
    rewrite !samples_app, !accepts_app, !errors_app, !chain_stages_app, !decodes_app,
      !filter_app.
    rewrite Hb1, Hb2, Hb3, Hb4, Hb5, Hb6, Hb7, H1, H2, H3, H4, H6, H7,
      Hs1, Hs2, Hs3, Hs4, Hs5, Hs6, Hs7.
    cbn [app]. rewrite app_nil_r.
    repeat split; auto.
    unfold decodes in *. cbn. now rewrite app_nil_r.
Qed.

End Parts.

(** ** The generation loop inside a call *)

Section Inside.

Context (E : Engine).

Lemma log_line_quiet (ev : Event) :
  is_log ev = true ->
  accepts [ev] = [] /\ filter is_sampler_free [ev] = [] /\
  filter is_sampler_reset [ev] = [].
Proof. destruct ev; cbn; intros H; try discriminate; auto. Qed.

(** Any call either never reached the generation loop, or ran it between
    the reset and the free of the sampler chain. *)
Lemma nativeCompletion_parts (fuel : nat) (jHandle : option (LlamaHandle E))
    (cprompt : option std_string) (nThreads maxTokens : Z) (temp topP : jfloat) (seed : Z) :
  let r := nativeCompletion E fuel jHandle cprompt nThreads maxTokens temp topP seed in
  (samples (r_trace E r) = [] /\ accepts (r_trace E r) = [] /\
   chain_stages (r_trace E r) = [] /\
   filter is_sampler_free (r_trace E r) = [] /\
   filter is_sampler_reset (r_trace E r) = [] /\
   (r_out E r = Returned [] \/ r_out E r = OutOfFuel)) \/
  (exists h v pre gtr out,
      jHandle = Some h /\ vocab E h = Some v /\
      r_trace E r = pre ++ Call_sampler_reset :: gtr ++ [Call_sampler_free] /\
      r_out E r = Returned (toJStr out) /\
      gen_trace E v 0 [] gtr out /\
      samples pre = [] /\ accepts pre = [] /\ errors pre = [] /\
      chain_stages pre = sampler_stages E temp topP seed /\
      Forall (fun d => snd d = 0) (decodes pre) /\
      filter is_sampler_free pre = [] /\ filter is_sampler_reset pre = [] /\
      (length (samples gtr) <= Z.to_nat (std_max 1 maxTokens))%nat /\
      (length (samples gtr) = Z.to_nat (std_max 1 maxTokens) \/
       existsb (llama_vocab_is_eog E v) (samples gtr) = true \/
       errors gtr <> []) /\
      llama_sampler_chain_init E <> None).
Proof.
  intros r. subst r.
  destruct (nativeCompletion_cases E jHandle cprompt)
    as [(ev & Hlog & Hr)|(h & c & m & v & b & rest & Hh & Hc & Hm & Hv & Hp & Hr)];
    rewrite Hr.
  - left. cbn [r_trace r_out].
    destruct (log_line_trace ev Hlog) as (H1 & H2 & _).
    destruct (log_line_quiet ev Hlog) as (H3 & H4 & H5). auto 10.
  - rewrite finish_outcome, finish_trace.
    pose proof (completion_anatomy E fuel v (n_ctx E h) (b :: rest) nThreads maxTokens
                  temp topP seed c) as Han. cbv zeta in Han.
    destruct (anatomy_generated_or_not E v nThreads maxTokens temp topP seed (n_ctx E h)
                _ _ _ Han) as [Hleft|(pre & gtr & out & Hright)].
    + left. exact Hleft.
    + right. exists h, v, pre, gtr, out. auto.
Qed.

End Inside.

(** X2. Whatever ends a call on a valid handle, the tokens accepted into
    the sampler are the sampled tokens that are not end-of-generation
    tokens, there are at most [max(1, maxTokens)] of them, and the text a
    call returns is the concatenation of their pieces, in order, cut
    before its first zero byte by [toJStr]: the concatenation itself when
    it holds no zero byte. *)
Theorem output_is_text_of_accepted_tokens (E : Engine) (fuel : nat) (h : LlamaHandle E)
    (v : llama_vocab E) (cprompt : option std_string) (nThreads maxTokens : Z)
    (temp topP : jfloat) (seed : Z) :
  vocab E h = Some v ->
  let r := nativeCompletion E fuel (Some h) cprompt nThreads maxTokens temp topP seed in
  accepts (r_trace E r) = filter (not_eog E v) (samples (r_trace E r)) /\
  Z.of_nat (length (accepts (r_trace E r))) <= Z.max 1 maxTokens /\
  forall s, r_out E r = Returned s ->
            s = toJStr (concat (map (piece_of E v) (accepts (r_trace E r)))) /\
            (~ In x00 (concat (map (piece_of E v) (accepts (r_trace E r)))) ->
             s = concat (map (piece_of E v) (accepts (r_trace E r)))).
Proof.
  intros Hv r. subst r.
  pose proof (nativeCompletion_parts E fuel (Some h) cprompt nThreads maxTokens temp topP
                seed) as Hparts.
  cbv zeta in Hparts.
  destruct Hparts
    as [(Hs & Ha & _ & _ & _ & Ho)
       |(h' & v' & pre & gtr & out & Hh & Hv' & Htr & Hout & Hg & Hs & Ha & _ & _ & _ & _
         & _ & Hlen & _)].
  - rewrite Hs, Ha. split; [reflexivity|]. split; [cbn [length]; lia|].
    intros s Hret. destruct Ho as [Ho|Ho]; rewrite Ho in Hret; [|discriminate].
    injection Hret as <-. split; reflexivity.
  - injection Hh as <-. rewrite Hv in Hv'. injection Hv' as <-.
    destruct (gen_trace_accepts E v 0 [] gtr out Hg) as (Hacc & _).
    assert (Hsam : samples (r_trace E (nativeCompletion E fuel (Some h) cprompt nThreads
                     maxTokens temp topP seed)) = samples gtr).
    { rewrite Htr. change (Call_sampler_reset :: gtr ++ [Call_sampler_free])
        with ([Call_sampler_reset] ++ gtr ++ [Call_sampler_free]).
      rewrite !samples_app, Hs. cbn. now rewrite app_nil_r. }
    assert (Hac : accepts (r_trace E (nativeCompletion E fuel (Some h) cprompt nThreads
                    maxTokens temp topP seed)) = accepts gtr).
    { rewrite Htr. change (Call_sampler_reset :: gtr ++ [Call_sampler_free])
        with ([Call_sampler_reset] ++ gtr ++ [Call_sampler_free]).
      rewrite !accepts_app, Ha. cbn. now rewrite app_nil_r. }
    rewrite Hac, Hsam. split; [exact Hacc|]. split.
    + rewrite Hacc.
      pose proof (filter_length_le (not_eog E v) (samples gtr)) as Hle.
      rewrite std_max_spec in Hlen. lia.
    + intros s Hret. rewrite Hout in Hret. injection Hret as <-.
      pose proof (gen_trace_output E v 0 [] gtr out Hg) as Hgo. cbn [app] in Hgo.
      rewrite Hacc, <- Hgo.
      split; [reflexivity|]. intros Hz. unfold toJStr. now rewrite c_str_no_zero.
Qed.

(** The run on the small engine with prompt "c": tokens 98 and 97 are
    accepted, 96 is not, and the text is "ba". *)
Lemma output_is_text_of_accepted_tokens_witness :
  let r := nativeCompletion Toy.engine 10 (Some (Toy.handle 256)) (Some Toy.prompt_c)
             0 8 f_zero f_zero (-1) in
  accepts (r_trace Toy.engine r) = [98; 97] /\
  r_out Toy.engine r = Returned ["b"%byte; "a"%byte].
Proof.
  destruct (output_is_text_of_accepted_tokens Toy.engine 10 (Toy.handle 256) tt
              (Some Toy.prompt_c) 0 8 f_zero f_zero (-1) eq_refl) as (Hacc & _ & Hout).
  split; [exact Hacc | reflexivity].
Defined.

Lemma filter_no_eog (E : Engine) (v : llama_vocab E) (l : list llama_token) :
  existsb (llama_vocab_is_eog E v) l = false -> filter (not_eog E v) l = l.
Proof.
  unfold not_eog. induction l as [|x l IH]; cbn; [reflexivity|].
  destruct (llama_vocab_is_eog E v x); cbn; [discriminate|].
  intros H. now rewrite IH.
Qed.

(** X3. In a call on a valid handle, every token accepted into the
    sampler is fed back to the engine exactly once, alone in its batch and
    in the order of acceptance: once the setup is over (nothing sampled or
    accepted yet), the batches decoded are the accepted tokens, one by
    one. *)
Theorem accepted_tokens_are_fed_back_in_order (E : Engine) (fuel : nat) (h : LlamaHandle E)
    (v : llama_vocab E) (cprompt : option std_string) (nThreads maxTokens : Z)
    (temp topP : jfloat) (seed : Z) :
  vocab E h = Some v ->
  let r := nativeCompletion E fuel (Some h) cprompt nThreads maxTokens temp topP seed in
  exists pre post,
    r_trace E r = pre ++ post /\
    samples pre = [] /\ accepts pre = [] /\
    map fst (decodes post) = map (fun tok => [tok]) (accepts (r_trace E r)).
Proof.
  intros Hv r. subst r.
  pose proof (nativeCompletion_parts E fuel (Some h) cprompt nThreads maxTokens temp topP
                seed) as Hparts.
  cbv zeta in Hparts.
  destruct Hparts
    as [(Hs & Ha & _)
       |(h' & v' & pre & gtr & out & Hh & Hv' & Htr & Hout & Hg & Hs & Ha & _)].
  - eexists _, []. rewrite app_nil_r. repeat split; [exact Hs | exact Ha |].
    rewrite Ha. reflexivity.
  - injection Hh as <-. rewrite Hv in Hv'. injection Hv' as <-.
    destruct (gen_trace_accepts E v 0 [] gtr out Hg) as (_ & Hdec).
    exists pre, (Call_sampler_reset :: gtr ++ [Call_sampler_free]).
    repeat split; [exact Htr | exact Hs | exact Ha |].
    rewrite Htr.
    change (Call_sampler_reset :: gtr ++ [Call_sampler_free])
      with ([Call_sampler_reset] ++ gtr ++ [Call_sampler_free]).
    rewrite !accepts_app, !decodes_app, Ha. cbn [app].
    change (decodes [Call_sampler_reset]) with (@nil (list llama_token * Z)).
    change (decodes [Call_sampler_free]) with (@nil (list llama_token * Z)).
    change (accepts [Call_sampler_reset]) with (@nil llama_token).
    change (accepts [Call_sampler_free]) with (@nil llama_token).
    cbn [app]. rewrite !app_nil_r. exact Hdec.
Qed.

(** The run on the small engine with prompt "c": after the setup the
    batches are [98] and [97]. *)
Lemma accepted_tokens_are_fed_back_in_order_witness :
  exists pre post,
    r_trace Toy.engine
      (nativeCompletion Toy.engine 10 (Some (Toy.handle 256)) (Some Toy.prompt_c)
         0 8 f_zero f_zero (-1)) = pre ++ post /\
    samples pre = [] /\ accepts pre = [] /\
    map fst (decodes post) = [[98]; [97]].
Proof.
  exact (accepted_tokens_are_fed_back_in_order Toy.engine 10 (Toy.handle 256) tt
           (Some Toy.prompt_c) 0 8 f_zero f_zero (-1) eq_refl).
Defined.

(** X4. A call on a valid handle that sampled a token, sampled no
    end-of-generation token and logged no error used its whole budget: it
    sampled exactly [max(1, maxTokens)] tokens, and it returned the
    concatenation of the pieces of all of them, cut before its first zero
    byte by [toJStr]: the concatenation itself when it holds no zero
    byte. *)
Theorem quiet_generation_uses_the_whole_budget (E : Engine) (fuel : nat)
    (h : LlamaHandle E) (v : llama_vocab E) (cprompt : option std_string)
    (nThreads maxTokens : Z) (temp topP : jfloat) (seed : Z) :
  vocab E h = Some v ->
  let r := nativeCompletion E fuel (Some h) cprompt nThreads maxTokens temp topP seed in
  samples (r_trace E r) <> [] ->
  existsb (llama_vocab_is_eog E v) (samples (r_trace E r)) = false ->
  errors (r_trace E r) = [] ->
  Z.of_nat (length (samples (r_trace E r))) = Z.max 1 maxTokens /\
  r_out E r = Returned (toJStr (concat (map (piece_of E v) (samples (r_trace E r))))) /\
  (~ In x00 (concat (map (piece_of E v) (samples (r_trace E r)))) ->
   r_out E r = Returned (concat (map (piece_of E v) (samples (r_trace E r))))).
Proof.
  intros Hv r. subst r.
  pose proof (nativeCompletion_parts E fuel (Some h) cprompt nThreads maxTokens temp topP
                seed) as Hparts.
  cbv zeta in Hparts. intros Hne Heog Herr.
  destruct Hparts
    as [(Hs & _)
       |(h' & v' & pre & gtr & out & Hh & Hv' & Htr & Hout & Hg & Hs & _ & He & _ & _ & _
         & _ & Hlen & Hstop & _)].
  - contradiction.
  - injection Hh as <-. rewrite Hv in Hv'. injection Hv' as <-.
    assert (Hsam : samples (r_trace E (nativeCompletion E fuel (Some h) cprompt nThreads
                     maxTokens temp topP seed)) = samples gtr).
    { rewrite Htr. change (Call_sampler_reset :: gtr ++ [Call_sampler_free])
        with ([Call_sampler_reset] ++ gtr ++ [Call_sampler_free]).
      rewrite !samples_app, Hs. cbn. now rewrite app_nil_r. }
    assert (Herrs : errors gtr = []).
    { rewrite Htr in Herr.
      change (Call_sampler_reset :: gtr ++ [Call_sampler_free])
        with ([Call_sampler_reset] ++ gtr ++ [Call_sampler_free]) in Herr.
      rewrite !errors_app, He in Herr. cbn in Herr. now rewrite app_nil_r in Herr. }
    rewrite Hsam in Heog |- *. split.
    + destruct Hstop as [Hfull|[Hstop|Hstop]].
      * rewrite Hfull, std_max_spec. lia.
      * rewrite Hstop in Heog. discriminate.
      * contradiction.
    + assert (Hgo : out = concat (map (piece_of E v) (samples gtr))).
      { rewrite (gen_trace_output E v 0 [] gtr out Hg), (filter_no_eog E v _ Heog).
        reflexivity. }
      rewrite Hout, <- Hgo. split; [reflexivity|].
      intros Hz. unfold toJStr. now rewrite c_str_no_zero.
Qed.

(** The run on the small engine with prompt "z" (122) and budget 1: one
    token, 'y', is sampled and returned. *)
Lemma quiet_generation_uses_the_whole_budget_witness :
  let r := nativeCompletion Toy.engine 10 (Some (Toy.handle 256)) (Some Toy.prompt_z)
             0 1 f_zero f_zero (-1) in
  Z.of_nat (length (samples (r_trace Toy.engine r))) = 1 /\
  r_out Toy.engine r = Returned ["y"%byte].
Proof.
  destruct (quiet_generation_uses_the_whole_budget Toy.engine 10 (Toy.handle 256) tt
              (Some Toy.prompt_z) 0 1 f_zero f_zero (-1) eq_refl
              ltac:(vm_compute; discriminate) eq_refl eq_refl) as (Hlen & Hout & _).
  split; [exact Hlen | exact Hout].
Defined.

(** X5. On every path the sampler chain is freed exactly when it was
    created and set up: either the trace holds no reset and no free of a
    chain, and then nothing was sampled and no stage was added; or it
    holds exactly one reset and exactly one free, the free is the last
    event, all the stages were added before the reset, and nothing is
    sampled or accepted before it. *)
Theorem sampler_chain_is_freed_once (E : Engine) (fuel : nat)
    (jHandle : option (LlamaHandle E)) (cprompt : option std_string)
    (nThreads maxTokens : Z) (temp topP : jfloat) (seed : Z) :
  let tr := r_trace E
    (nativeCompletion E fuel jHandle cprompt nThreads maxTokens temp topP seed) in
  (filter is_sampler_reset tr = [] /\ filter is_sampler_free tr = [] /\
   samples tr = [] /\ chain_stages tr = []) \/
  (exists pre mid,
      tr = pre ++ Call_sampler_reset :: mid ++ [Call_sampler_free] /\
      filter is_sampler_reset pre = [] /\ filter is_sampler_free pre = [] /\
      filter is_sampler_reset mid = [] /\ filter is_sampler_free mid = [] /\
      samples pre = [] /\ accepts pre = [] /\
      chain_stages pre = sampler_stages E temp topP seed /\ chain_stages mid = []).
Proof.
  intros tr. subst tr.
  pose proof (nativeCompletion_parts E fuel jHandle cprompt nThreads maxTokens temp topP
                seed) as Hparts.
  cbv zeta in Hparts.
  destruct Hparts
    as [(Hs & _ & Hc & Hf & Hr & _)
       |(h & v & pre & gtr & out & _ & _ & Htr & _ & Hg & Hs & Ha & _ & Hc & _ & Hf & Hr
         & _)].
  - left. auto.
  - right. exists pre, gtr.
    destruct (gen_events_quiet gtr (gen_trace_events E v 0 [] gtr out Hg))
      as (Hgc & Hgf & Hgr & _).
    repeat split; auto.
Qed.

(** X6. If the engine cannot create a sampler chain, no call samples a
    token or frees a chain, and a call that returns returns the empty
    string. *)
Theorem chain_creation_failure_yields_nothing (E : Engine) (fuel : nat)
    (jHandle : option (LlamaHandle E)) (cprompt : option std_string)
    (nThreads maxTokens : Z) (temp topP : jfloat) (seed : Z) :
  llama_sampler_chain_init E = None ->
  let r := nativeCompletion E fuel jHandle cprompt nThreads maxTokens temp topP seed in
  samples (r_trace E r) = [] /\
  filter is_sampler_free (r_trace E r) = [] /\
  (r_out E r = Returned [] \/ r_out E r = OutOfFuel).
Proof.
  intros Hnone r. subst r.
  pose proof (nativeCompletion_parts E fuel jHandle cprompt nThreads maxTokens temp topP
                seed) as Hparts.
  cbv zeta in Hparts.
  destruct Hparts
    as [(Hs & _ & _ & Hf & _ & Ho)
       |(h & v & pre & gtr & out & _ & _ & _ & _ & _ & _ & _ & _ & _ & _ & _ & _ & _ & _
         & Hinit)].
  - auto.
  - contradiction.
Qed.

(** The run on the engine whose chain creation fails: the prompt is
    decoded, the failure is logged and the empty string returned. *)
Lemma chain_creation_failure_yields_nothing_witness :
  let r := nativeCompletion (Faulty.engine true true true true false) 10
             (Some (Faulty.handle true true true true false [] 256)) (Some Toy.prompt_c)
             0 8 f_zero f_zero (-1) in
  decodes (r_trace _ r) = [([1; 99], 0)] /\
  errors (r_trace _ r) = [MsgChainInitFailed] /\
  r_out _ r = Returned [].
Proof.
  destruct (chain_creation_failure_yields_nothing
              (Faulty.engine true true true true false) 10
              (Some (Faulty.handle true true true true false [] 256)) (Some Toy.prompt_c)
              0 8 f_zero f_zero (-1) eq_refl) as (_ & _ & [Ho|Ho]).
  - split; [reflexivity|]. split; [reflexivity | exact Ho].
  - discriminate Ho.
Defined.

(** ** The setup of the context *)

Lemma anatomy_setup_once (E : Engine) (v : llama_vocab E) (nThreads maxTokens : Z)
    (temp topP : jfloat) (seed h_n_ctx n : Z) (o : Outcome) (tr : list Event) :
  call_anatomy E v nThreads maxTokens temp topP seed h_n_ctx n o tr ->
  filter is_memory_seq_rm tr = clear_events /\
  filter is_set_n_threads tr =
    [Call_set_n_threads (resolve_threads E nThreads) (resolve_threads E nThreads)].
Proof.
  assert (Hbody :
    filter is_memory_seq_rm (body_events E nThreads maxTokens temp topP seed h_n_ctx n) =
      clear_events /\
    filter is_set_n_threads (body_events E nThreads maxTokens temp topP seed h_n_ctx n) =
      [Call_set_n_threads (resolve_threads E nThreads) (resolve_threads E nThreads)]).
  { unfold body_events, head_events, capacity_events.
    destruct (_ >? h_n_ctx); split; reflexivity. }
  destruct Hbody as (Hb1 & Hb2).
  destruct (stages_quiet E temp topP seed) as (_ & _ & _ & _ & _ & _ & _ & Hs1 & Hs2 & _).
  intros Han.
  destruct Han as [Hn | Hn | ds b st Hn Hds Hst | ds Hn Hds | ds Hn Hds Hinit
                  | ds gtr out Hn Hds Hinit Hgt Hlen Hstop];
    try (split; reflexivity);
    destruct (ok_decodes_quiet ds Hds) as (_ & _ & _ & _ & _ & _ & _ & Hd1 & Hd2 & _);
    rewrite !filter_app, Hb1, Hb2, Hd1, Hd2.
  - split; reflexivity.
  - split; cbn; now rewrite ?app_nil_r.
  - split; reflexivity.
  - destruct (gen_events_quiet gtr (gen_trace_events E v 0 [] gtr out Hgt))
      as (_ & _ & _ & Hg1 & Hg2 & _).
    rewrite Hs1, Hs2, Hg1, Hg2. split; cbn; now rewrite ?app_nil_r.
Qed.

(** X7. In a call on a valid handle with a non-empty prompt the context
    is cleared and configured once and never again, whichever way the
    call ends: the removals in the trace are the sixteen of the start, and
    the thread count is set exactly once, to the same value for single
    tokens and for batches.  That value is [nThreads] when it is
    positive, and otherwise the larger of 2 and the processor count. *)
Theorem context_is_set_up_exactly_once (E : Engine) (fuel : nat) (h : LlamaHandle E)
    (c : llama_context E) (m : llama_model E) (v : llama_vocab E)
    (b : byte) (rest : std_string) (nThreads maxTokens : Z) (temp topP : jfloat)
    (seed : Z) :
  ctx E h = Some c -> model E h = Some m -> vocab E h = Some v ->
  let r := nativeCompletion E fuel (Some h) (Some (b :: rest)) nThreads maxTokens
             temp topP seed in
  exists nth,
    filter is_memory_seq_rm (r_trace E r) =
      map (fun s => Call_memory_seq_rm s 0 (-1)) (map Z.of_nat (seq 0 16)) /\
    filter is_set_n_threads (r_trace E r) = [Call_set_n_threads nth nth] /\
    (0 < nThreads -> nth = nThreads) /\
    (nThreads <= 0 -> nth = Z.max 2 (wrap_int (nprocessors_onln E))) /\
    1 <= nth.
Proof.
  intros Hc Hm Hv r. subst r. exists (resolve_threads E nThreads).
  rewrite (nativeCompletion_valid E fuel h c m v b rest nThreads maxTokens temp topP seed
             Hc Hm Hv), finish_trace.
  pose proof (completion_anatomy E fuel v (n_ctx E h) (b :: rest) nThreads maxTokens
                temp topP seed c) as Han. cbv zeta in Han.
  destruct (anatomy_setup_once E v nThreads maxTokens temp topP seed (n_ctx E h) _ _ _ Han)
    as (H1 & H2).
  split; [exact H1|]. split; [exact H2|].
  unfold resolve_threads. rewrite std_max_spec.
  destruct (nThreads >? 0) eqn:Hpos; rewrite Z.gtb_ltb in Hpos;
    [apply Z.ltb_lt in Hpos | apply Z.ltb_ge in Hpos]; repeat split; lia.
Qed.

(** The run on the small engine (4 processors) with [nThreads = 0]: the
    thread count is set once, to 4. *)
Lemma context_is_set_up_exactly_once_witness :
  filter is_set_n_threads
    (r_trace Toy.engine
       (nativeCompletion Toy.engine 10 (Some (Toy.handle 256)) (Some Toy.prompt_c)
          0 8 f_zero f_zero (-1))) = [Call_set_n_threads 4 4].
Proof.
  destruct (context_is_set_up_exactly_once Toy.engine 10 (Toy.handle 256) _ tt tt
              "c"%byte [] 0 8 f_zero f_zero (-1) eq_refl eq_refl eq_refl)
    as (nth & _ & Hset & _ & Hauto & _).
  rewrite (Hauto ltac:(lia)) in Hset. exact Hset.
Defined.

(** ** Tokenization and the capacity check *)

Section Tokenized.

Context (E : Engine).

(** When the prompt does not tokenize, [completion] stops right after the
    tokenizer, on the prepared context. *)
Lemma completion_untokenized_run (fuel : nat) (v : llama_vocab E) (h_n_ctx : Z)
    (prompt : std_string) (nThreads maxTokens : Z) (temp topP : jfloat) (seed : Z)
    (c : llama_context E) :
  prompt_tokens E v prompt = None ->
  exists tl,
    completion E fuel v h_n_ctx prompt nThreads maxTokens temp topP seed c =
    (Done [], prepared E c nThreads,
     head_events E nThreads maxTokens temp topP seed ++ tl) /\
    ((announced_tokens E v prompt <= 0 /\ tl = [LOGW MsgTokenizeNone]) \/
     (0 < announced_tokens E v prompt /\
      tl = [Call_tokenize (announced_tokens E v prompt); LOGE MsgTokenizeFailed])).
Proof.
  unfold prompt_tokens, announced_tokens. intros Htok.
  remember (completion E fuel v h_n_ctx prompt nThreads maxTokens temp topP seed c)
    as y eqn:Hy.
  unfold completion in Hy.
  unfold bind at 1 in Hy. rewrite clear_memory_cleared in Hy.
  unfold bind at 1 in Hy. unfold call_set_n_threads at 1 in Hy.
  unfold bind at 1 in Hy. unfold emit at 1 in Hy.
  unfold bind at 1 in Hy. unfold call_tokenize at 1 in Hy. cbn [fst] in Hy.
  set (n := int_neg _) in *.
  destruct (n <=? 0) eqn:Hn.
  - apply Z.leb_le in Hn. unfold bind, emit, exit_with in Hy. subst y.
    exists [LOGW MsgTokenizeNone]. split; [|left; auto].
    reflexivity.
  - apply Z.leb_gt in Hn.
    unfold bind at 1 in Hy. unfold call_tokenize at 1 in Hy. cbn [fst snd] in Hy.
    destruct (fst _ <? 0); [|discriminate Htok].
    unfold bind, emit, exit_with in Hy. subst y.
    exists [Call_tokenize n; LOGE MsgTokenizeFailed]. split; [|right; auto].
    reflexivity.
Qed.

(** Past the read of the batch capacity nothing logs an overflow
    warning. *)
Lemma rest_logs_no_overflow (fuel : nat) (v : llama_vocab E) (toks : list llama_token)
    (n nb maxTokens : Z) (temp topP : jfloat) (seed : Z) (c : llama_context E) :
  filter is_overflow_warning
    (snd (bind E (decode_prompt E fuel toks n nb 0)
            (fun _ => sample_text E v maxTokens temp topP seed) c)) = [].
Proof.
  unfold bind.
  destruct (decode_prompt_run E fuel toks n nb 0 c)
    as (ds & c' & Hds & [H|[H|(b & st & Hst & H)]]); rewrite H;
    destruct (ok_decodes_quiet ds Hds) as (_ & _ & _ & _ & _ & _ & _ & _ & _ & Hq & _).
  - destruct (sample_text_run E v maxTokens temp topP seed c')
      as [(_ & ->)|(gtr & out & c4 & _ & -> & Hgt & _)]; cbn [snd].
    + rewrite filter_app, Hq. reflexivity.
    + destruct (gen_events_quiet gtr (gen_trace_events E v 0 [] gtr out Hgt))
        as (_ & _ & _ & _ & _ & Hg & _).
      destruct (stages_quiet E temp topP seed)
        as (_ & _ & _ & _ & _ & _ & _ & _ & _ & Hs & _).
      rewrite !filter_app, Hq, Hs, Hg. reflexivity.
  - cbn [snd]. exact Hq.
  - cbn [snd]. rewrite filter_app, Hq. reflexivity.
Qed.

(** With a batch capacity of 0 and an engine that accepts the empty
    batch, the prompt loop never ends. *)
Lemma decode_prompt_stuck (toks : list llama_token) (n : Z) :
  0 < n <= INT_MAX ->
  (forall c, fst (llama_decode E c []) = 0) ->
  forall fuel c, fst (fst (decode_prompt E fuel toks n 0 0 c)) = Spin.
Proof.
  intros Hn Hok.
  assert (Hbatch : llama_batch_get_one toks 0 (std_min 0 (int_sub n 0)) = []).
  { unfold llama_batch_get_one, int_sub. rewrite Z.sub_0_r.
    rewrite wrap_int_small by (unfold INT_MIN, INT_MAX in *; lia).
    rewrite std_min_spec. replace (Z.min 0 n) with 0 by lia. reflexivity. }
  induction fuel as [|fuel IH]; intros c; cbn [decode_prompt].
  - destruct (0 <? n) eqn:H0; [reflexivity | apply Z.ltb_ge in H0; lia].
  - destruct (0 <? n) eqn:H0; [|apply Z.ltb_ge in H0; lia].
    rewrite Hbatch. unfold bind, call_decode. rewrite Hok. cbn [negb Z.eqb].
    change (int_add 0 0) with 0.
    specialize (IH (snd (llama_decode E c []))).
    destruct (decode_prompt E fuel toks n 0 0 (snd (llama_decode E c []))) as [[f c'] t].
    cbn [fst snd] in *. now subst f.
Qed.

End Tokenized.

(** X8. On a valid handle, a prompt that does not tokenize (the first
    pass announces no token, or the second pass fails) makes the call
    return the empty string without decoding anything and without
    creating a sampler chain; but, unlike an empty prompt, the call has
    cleared and configured the context before it found out: the handle is
    left on the prepared context. *)
Theorem tokenization_failure_returns_empty (E : Engine) (fuel : nat) (h : LlamaHandle E)
    (c : llama_context E) (m : llama_model E) (v : llama_vocab E)
    (b : byte) (rest : std_string) (nThreads maxTokens : Z) (temp topP : jfloat)
    (seed : Z) :
  ctx E h = Some c -> model E h = Some m -> vocab E h = Some v ->
  prompt_tokens E v (b :: rest) = None ->
  let r := nativeCompletion E fuel (Some h) (Some (b :: rest)) nThreads maxTokens
             temp topP seed in
  r_out E r = Returned [] /\
  r_handle E r = Some (with_ctx E h (prepared E c nThreads)) /\
  decodes (r_trace E r) = [] /\
  filter is_chain_init (r_trace E r) = [] /\
  (exists tl,
      r_trace E r =
        map (fun s => Call_memory_seq_rm s 0 (-1)) (map Z.of_nat (seq 0 16)) ++
        Call_set_n_threads (resolve_threads E nThreads) (resolve_threads E nThreads) :: tl).
Proof.
  intros Hc Hm Hv Htok r. subst r.
  rewrite (nativeCompletion_valid E fuel h c m v b rest nThreads maxTokens temp topP seed
             Hc Hm Hv).
  destruct (completion_untokenized_run E fuel v (n_ctx E h) (b :: rest) nThreads maxTokens
              temp topP seed c Htok) as (tl & -> & Htl).
  cbn [finish r_out r_handle r_trace].
  split; [reflexivity|]. split; [reflexivity|].
  rewrite decodes_app, filter_app.
  destruct Htl as [(_ & ->)|(_ & ->)]; (split; [reflexivity|]); (split; [reflexivity|]);
    eexists; unfold head_events, clear_events, reserved_seq_ids; list_norm; reflexivity.
Qed.

(** The run on the engine whose tokenizer announces no token, from a
    context that held two tokens: the empty string, and the context
    cleared. *)
Lemma tokenization_failure_returns_empty_witness :
  let E := Faulty.engine true true true false true in
  let r := nativeCompletion E 10 (Some (Faulty.handle true true true false true [1; 7] 8))
             (Some Toy.prompt_c) 0 8 f_zero f_zero (-1) in
  r_out E r = Returned [] /\
  r_handle E r = Some (Faulty.handle true true true false true [] 8).
Proof.
  intros E r.
  destruct (tokenization_failure_returns_empty E 10
              (Faulty.handle true true true false true [1; 7] 8) _ tt tt "c"%byte [] 0 8
              f_zero f_zero (-1) eq_refl eq_refl eq_refl eq_refl) as (Hout & Hh & _).
  split; [exact Hout | exact Hh].
Defined.

(** X9. On a valid handle and a prompt that tokenizes, with a sum the
    [int] addition represents, the overflow warning is logged exactly
    when the token count plus [max(1, maxTokens)] plus 8 exceeds the
    window size of the handle, and then exactly once, with these three
    numbers; no other part of the call logs it. *)
Theorem overflow_warning_exactly_when_over (E : Engine) (fuel : nat) (h : LlamaHandle E)
    (c : llama_context E) (m : llama_model E) (v : llama_vocab E)
    (b : byte) (rest : std_string) (nThreads maxTokens : Z) (temp topP : jfloat)
    (seed : Z) (toks : list llama_token) :
  ctx E h = Some c -> model E h = Some m -> vocab E h = Some v ->
  prompt_tokens E v (b :: rest) = Some toks ->
  let n_prompt := Z.of_nat (length toks) in
  let predict := Z.max 1 maxTokens in
  n_prompt + predict + 8 <= INT_MAX ->
  let r := nativeCompletion E fuel (Some h) (Some (b :: rest)) nThreads maxTokens
             temp topP seed in
  filter is_overflow_warning (r_trace E r) =
  if n_prompt + predict + 8 >? n_ctx E h
  then [LOGW (MsgOverflow n_prompt predict (n_ctx E h))] else [].
Proof.
  intros Hc Hm Hv Htok n_prompt predict Hfit r. subst r.
  pose proof (prompt_tokens_length E v (b :: rest) toks Htok) as Hlen.
  fold n_prompt in Hlen.
  rewrite (nativeCompletion_valid E fuel h c m v b rest nThreads maxTokens temp topP seed
             Hc Hm Hv), finish_trace.
  rewrite (completion_tokenized E fuel v (n_ctx E h) (b :: rest) nThreads maxTokens
             temp topP seed c toks Htok).
  cbn [snd]. fold n_prompt.
  change (Call_n_batch :: ?x) with ([Call_n_batch] ++ x).
  rewrite !filter_app, rest_logs_no_overflow.
  unfold check_capacity, int_add. rewrite std_max_spec. fold predict.
  unfold INT_MAX in Hfit, Hlen.
  rewrite (wrap_int_small (n_prompt + predict)) by (unfold INT_MIN, INT_MAX; lia).
  rewrite (wrap_int_small (n_prompt + predict + 8)) by (unfold INT_MIN, INT_MAX; lia).
  destruct (n_prompt + predict + 8 >? n_ctx E h); reflexivity.
Qed.

(** The runs on the small engine with 2 prompt tokens and budget 8: no
    warning with a window of 256, one with a window of 16. *)
Lemma overflow_warning_exactly_when_over_witness :
  filter is_overflow_warning
    (r_trace Toy.engine
       (nativeCompletion Toy.engine 10 (Some (Toy.handle 256)) (Some Toy.prompt_c)
          0 8 f_zero f_zero (-1))) = [] /\
  filter is_overflow_warning
    (r_trace Toy.engine
       (nativeCompletion Toy.engine 10 (Some (Toy.handle 16)) (Some Toy.prompt_c)
          0 8 f_zero f_zero (-1))) = [LOGW (MsgOverflow 2 8 16)].
Proof.
  split.
  - exact (overflow_warning_exactly_when_over Toy.engine 10 (Toy.handle 256) _ tt tt
             "c"%byte [] 0 8 f_zero f_zero (-1) [1; 99] eq_refl eq_refl eq_refl eq_refl
             ltac:(unfold INT_MAX; cbn; lia)).
  - exact (overflow_warning_exactly_when_over Toy.engine 10 (Toy.handle 16) _ tt tt
             "c"%byte [] 0 8 f_zero f_zero (-1) [1; 99] eq_refl eq_refl eq_refl eq_refl
             ltac:(unfold INT_MAX; cbn; lia)).
Defined.

(** X10. The prompt loop advances by the batch capacity the engine
    reports.  If that capacity is 0 and the engine accepts an empty
    batch, a call on a valid handle with a prompt that tokenizes never
    leaves the prompt loop: whatever the fuel, it has not returned. *)
Theorem zero_batch_capacity_never_returns (E : Engine) (fuel : nat) (h : LlamaHandle E)
    (c : llama_context E) (m : llama_model E) (v : llama_vocab E)
    (b : byte) (rest : std_string) (nThreads maxTokens : Z) (temp topP : jfloat)
    (seed : Z) (toks : list llama_token) :
  ctx E h = Some c -> model E h = Some m -> vocab E h = Some v ->
  prompt_tokens E v (b :: rest) = Some toks ->
  llama_n_batch E (prepared E c nThreads) = 0 ->
  (forall c', fst (llama_decode E c' []) = 0) ->
  let r := nativeCompletion E fuel (Some h) (Some (b :: rest)) nThreads maxTokens
             temp topP seed in
  r_out E r = OutOfFuel /\ samples (r_trace E r) = [] /\
  Forall (fun d => d = ([], 0)) (decodes (r_trace E r)).
Proof.
  intros Hc Hm Hv Htok Hnb Hok r. subst r.
  pose proof (prompt_tokens_length E v (b :: rest) toks Htok) as Hlen.
  rewrite (nativeCompletion_valid E fuel h c m v b rest nThreads maxTokens temp topP seed
             Hc Hm Hv), finish_outcome, finish_trace.
  rewrite (completion_tokenized E fuel v (n_ctx E h) (b :: rest) nThreads maxTokens
             temp topP seed c toks Htok).
  cbn [fst snd]. rewrite Hnb. change (wrap_int 0) with 0.
  set (c2 := prepared E c nThreads).
  pose proof (decode_prompt_stuck E toks (Z.of_nat (length toks)) Hlen Hok fuel c2) as Hspin.
  assert (Hdec : forall fuel0 c0,
            Forall (fun d => d = (@nil llama_token, 0))
              (decodes (snd (decode_prompt E fuel0 toks (Z.of_nat (length toks)) 0 0 c0)))).
  { assert (Hbatch : llama_batch_get_one toks 0
                       (std_min 0 (int_sub (Z.of_nat (length toks)) 0)) = []).
    { unfold llama_batch_get_one, int_sub. rewrite Z.sub_0_r.
      rewrite wrap_int_small by (unfold INT_MIN, INT_MAX in *; lia).
      rewrite std_min_spec. replace (Z.min 0 (Z.of_nat (length toks))) with 0 by lia.
      reflexivity. }
    induction fuel0 as [|fuel0 IH]; intros c0; cbn [decode_prompt].
    - destruct (0 <? _); constructor.
    - destruct (0 <? _); [|constructor].
      rewrite Hbatch. unfold bind, call_decode. rewrite Hok. cbn [negb Z.eqb].
      change (int_add 0 0) with 0.
      specialize (IH (snd (llama_decode E c0 []))).
      destruct (decode_prompt E fuel0 toks _ 0 0 (snd (llama_decode E c0 [])))
        as [[f c'] t].
      cbn [fst snd] in *. unfold decodes in *. cbn. constructor; [reflexivity | exact IH]. }
  specialize (Hdec fuel c2).
  pose proof (decode_prompt_trace E fuel toks (Z.of_nat (length toks)) 0 0 c2) as Hs.
  cbv zeta in Hs. apply proj1 in Hs.
  unfold bind.
  destruct (decode_prompt E fuel toks (Z.of_nat (length toks)) 0 0 c2) as [[f c3] t].
  cbn [fst snd] in *. subst f. cbn [fst snd outcome_of].
  split; [reflexivity|].
  assert (Hsetup : forall l,
    samples (setup_events E nThreads maxTokens temp topP seed (Z.of_nat (length toks)) ++
             snd (check_capacity E (Z.of_nat (length toks)) (std_max 1 maxTokens)
                    (n_ctx E h) c2) ++ Call_n_batch :: l) = samples l /\
    decodes (setup_events E nThreads maxTokens temp topP seed (Z.of_nat (length toks)) ++
             snd (check_capacity E (Z.of_nat (length toks)) (std_max 1 maxTokens)
                    (n_ctx E h) c2) ++ Call_n_batch :: l) = decodes l).
  { intros l. unfold check_capacity. destruct (_ >? n_ctx E h); split; reflexivity. }
  destruct (Hsetup t) as (-> & ->). split; [exact Hs | exact Hdec].
Qed.

(** The run on the small engine from a context of batch capacity 0. *)
Lemma zero_batch_capacity_never_returns_witness :
  r_out (Faulty.engine true true true true true)
    (nativeCompletion (Faulty.engine true true true true true) 1000
       (Some (Faulty.handle true true true true true [] 0)) (Some Toy.prompt_c)
       0 8 f_zero f_zero (-1)) = OutOfFuel.
Proof.
  exact (proj1 (zero_batch_capacity_never_returns
                  (Faulty.engine true true true true true) 1000
                  (Faulty.handle true true true true true [] 0) _ tt tt "c"%byte [] 0 8
                  f_zero f_zero (-1) [1; 99] eq_refl eq_refl eq_refl eq_refl eq_refl
                  (fun c' => eq_refl))).
Defined.

(** ** The life of a handle *)

(** X11. A call on a valid handle leaves a valid handle, whichever way it
    ends: the model, the vocabulary and the window size are untouched and
    the context pointer is still set, so the handle passes the check of
    the next call; and freeing it afterwards releases the context, then
    the model, then the handle itself. *)
Theorem handle_survives_a_call (E : Engine) (fuel : nat) (h : LlamaHandle E)
    (c : llama_context E) (m : llama_model E) (v : llama_vocab E)
    (cprompt : option std_string) (nThreads maxTokens : Z) (temp topP : jfloat)
    (seed : Z) :
  ctx E h = Some c -> model E h = Some m -> vocab E h = Some v ->
  let r := nativeCompletion E fuel (Some h) cprompt nThreads maxTokens temp topP seed in
  exists h' c',
    r_handle E r = Some h' /\
    ctx E h' = Some c' /\ model E h' = Some m /\ vocab E h' = Some v /\
    n_ctx E h' = n_ctx E h /\
    nativeFree E (r_handle E r) = (None, [Call_free; Call_model_free; Call_delete]).
Proof.
  intros Hc Hm Hv r. subst r.
  destruct (nativeCompletion_cases E (Some h) cprompt)
    as [(ev & Hlog & Hr)|(h0 & c0 & m0 & v0 & b & rest & Hh & Hc0 & Hm0 & Hv0 & Hp & Hr)];
    rewrite Hr.
  - exists h, c. cbn [r_handle]. unfold nativeFree. rewrite Hc, Hm. auto 10.
  - injection Hh as <-. rewrite finish_handle.
    eexists (with_ctx E h _), _. cbn [ctx model vocab n_ctx with_ctx nativeFree].
    rewrite Hm. auto 10.
Qed.

(** The run on the small engine, then the release of its handle. *)
Lemma handle_survives_a_call_witness :
  nativeFree Toy.engine
    (r_handle Toy.engine
       (nativeCompletion Toy.engine 10 (Some (Toy.handle 256)) (Some Toy.prompt_c)
          0 8 f_zero f_zero (-1))) =
  (None, [Call_free; Call_model_free; Call_delete]).
Proof.
  destruct (handle_survives_a_call Toy.engine 10 (Toy.handle 256) _ tt tt
              (Some Toy.prompt_c) 0 8 f_zero f_zero (-1) eq_refl eq_refl eq_refl)
    as (h' & c' & _ & _ & _ & _ & _ & Hfree).
  exact Hfree.
Defined.

(** X12. A handle that [nativeLoadModel] returns has its model and its
    context set, and carries the window size asked for, or 2048 when the
    size asked for is not positive.  The context was created for that
    window, with a batch capacity that is the smaller of 512 and the
    window, hence never above it and at least 1, and with at least 2
    threads; the model is not freed. *)
Theorem loaded_handle_is_well_formed (E : Engine) (cpath : option std_string)
    (jNCtx : Z) (h : LlamaHandle E) :
  is_jint jNCtx ->
  fst (nativeLoadModel E cpath jNCtx) = Some h ->
  let window := if jNCtx >? 0 then jNCtx else 2048 in
  exists mdl cp,
    model E h = Some mdl /\
    ctx E h = llama_init_from_model E mdl cp /\ ctx E h <> None /\
    vocab E h = llama_model_get_vocab E mdl /\
    n_ctx E h = window /\
    cp_n_ctx cp = window /\
    cp_n_batch cp = Z.min 512 window /\
    1 <= cp_n_batch cp <= cp_n_ctx cp /\
    2 <= cp_n_threads cp /\
    In (Call_init_from_model cp) (snd (nativeLoadModel E cpath jNCtx)) /\
    ~ In Call_model_free (snd (nativeLoadModel E cpath jNCtx)).
Proof.
  intros HjN Hload window.
  assert (Hw : 1 <= window <= INT_MAX).
  { unfold window, is_jint, INT_MIN, INT_MAX in *.
    destruct (jNCtx >? 0) eqn:Hpos; [|lia].
    rewrite Z.gtb_ltb in Hpos. apply Z.ltb_lt in Hpos. lia. }
  assert (Hn : cp_n_ctx (load_context_params E jNCtx) = window).
  { unfold load_context_params, window, to_uint32. cbn [cp_n_ctx].
    destruct (jNCtx >? 0) eqn:Hpos; [|reflexivity].
    rewrite Z.gtb_ltb in Hpos. apply Z.ltb_lt in Hpos.
    unfold is_jint, INT_MIN, INT_MAX in HjN. rewrite Z.mod_small by lia. reflexivity. }
  pose proof (load_n_batch E jNCtx HjN) as Hb. fold window in Hb.
  unfold nativeLoadModel in *.
  destruct (match cpath with Some s => s | None => [] end) as [|b path]; [discriminate|].
  destruct (llama_model_load_from_file E (b :: path)) as [mdl|]; [|discriminate].
  destruct (llama_init_from_model E mdl (load_context_params E jNCtx)) as [c|] eqn:Hinit;
    [|discriminate].
  cbn [fst snd] in *. injection Hload as <-.
  exists mdl, (load_context_params E jNCtx). cbn [model ctx vocab n_ctx].
  rewrite Hinit, Hn, Hb.
  split; [reflexivity|]. split; [reflexivity|]. split; [discriminate|].
  split; [reflexivity|].
  split.
  { change (if jNCtx >? 0 then to_uint32 jNCtx else 2048)
      with (cp_n_ctx (load_context_params E jNCtx)).
    rewrite Hn. apply wrap_int_small. unfold INT_MIN, INT_MAX in *. lia. }
  split; [reflexivity|]. split; [reflexivity|]. split; [lia|].
  split.
  { unfold load_context_params. cbn [cp_n_threads]. rewrite std_max_spec. lia. }
  split.
  { right. right. left. reflexivity. }
  intros [H|[H|[H|[H|[]]]]]; discriminate H.
Qed.

(** The load on the small engine with a window of 2: a batch capacity
    of 2. *)
Lemma loaded_handle_is_well_formed_witness :
  exists mdl cp,
    ctx Toy.engine (Toy.handle 2) = llama_init_from_model Toy.engine mdl cp /\
    cp_n_batch cp = 2.
Proof.
  destruct (loaded_handle_is_well_formed Toy.engine (Some Toy.path) 2 (Toy.handle 2)
              ltac:(unfold is_jint, INT_MIN, INT_MAX; lia) eq_refl)
    as (mdl & cp & _ & Hctx & _ & _ & _ & _ & Hb & _).
  exists mdl, cp. split; [exact Hctx | exact Hb].
Defined.

(** X13. [nativeLoadModel] frees the model exactly when it had loaded it
    and returns no handle (the context could not be created), and it
    initializes the backend exactly when the path is not empty; with an
    empty path it does nothing but log.  It returns no handle exactly
    when the path is empty, the model does not load or the context
    cannot be created. *)
Theorem failed_load_releases_the_model (E : Engine) (cpath : option std_string)
    (jNCtx : Z) :
  let path := match cpath with Some s => s | None => [] end in
  let r := nativeLoadModel E cpath jNCtx in
  (In Call_model_free (snd r) <->
   fst r = None /\ path <> [] /\ llama_model_load_from_file E path <> None) /\
  (In Call_backend_init (snd r) <-> path <> []) /\
  (path = [] -> r = (None, [LOGE MsgModelPathEmpty])) /\
  (fst r = None <->
   path = [] \/ llama_model_load_from_file E path = None \/
   exists mdl, llama_model_load_from_file E path = Some mdl /\
               llama_init_from_model E mdl (load_context_params E jNCtx) = None).
Proof.
  intros path r. subst r path. unfold nativeLoadModel.
  destruct (match cpath with Some s => s | None => [] end) as [|b p]; cbn zeta.
  { cbn [fst snd]. split; [|split; [|split]].
    - split; [intros [H|[]]; discriminate H | intros (_ & H & _); now contradiction H].
    - split; [intros [H|[]]; discriminate H | intros H; now contradiction H].
    - reflexivity.
    - split; auto. }
  destruct (llama_model_load_from_file E (b :: p)) as [mdl|].
  2:{ cbn [fst snd]. split; [|split; [|split]].
      - split; [intros [H|[H|[H|[]]]]; discriminate H
               | intros (_ & _ & H); now contradiction H].
      - split; [discriminate | left; reflexivity].
      - discriminate.
      - split; auto. }
  destruct (llama_init_from_model E mdl (load_context_params E jNCtx)) as [c|] eqn:Hinit;
    cbn [fst snd]; (split; [|split; [|split]]).
  - split; [intros [H|[H|[H|[H|[]]]]]; discriminate H | intros (H & _); discriminate H].
  - split; [discriminate | left; reflexivity].
  - discriminate.
  - split; [discriminate|].
    intros [H|[H|(mdl' & H1 & H2)]]; try discriminate.
    congruence.
  - split; [intros _; repeat split; discriminate | intros _; do 4 right; left; reflexivity].
  - split; [discriminate | left; reflexivity].
  - discriminate.
  - split; [intros _; right; right; exists mdl; auto | reflexivity].
Qed.

(** The load on the engine that cannot create a context: no handle, and
    the model is freed last. *)
Lemma failed_load_releases_the_model_witness :
  let r := nativeLoadModel (Faulty.engine true false true true true) (Some Toy.path) 256 in
  fst r = None /\ In Call_model_free (snd r).
Proof.
  intros r.
  destruct (failed_load_releases_the_model (Faulty.engine true false true true true)
              (Some Toy.path) 256) as (Hfree & _).
  split; [reflexivity|]. apply Hfree. repeat split; discriminate.
Defined.

(** X14. Loading and then using a handle.  A handle [nativeLoadModel]
    returned is released by [nativeFree] in full: context, model, handle,
    in that order.  [nativeLoadModel] does not look at the vocabulary
    pointer: if the engine gave one, a call with a non-empty prompt on the
    handle passes both entry checks and starts clearing the context; if
    the engine gave none, the handle is returned all the same and every
    call on it is rejected as an invalid handle. *)
Theorem loaded_handle_can_be_used_and_freed (E : Engine) (cpath : option std_string)
    (jNCtx : Z) (h : LlamaHandle E) :
  fst (nativeLoadModel E cpath jNCtx) = Some h ->
  nativeFree E (Some h) = (None, [Call_free; Call_model_free; Call_delete]) /\
  (vocab E h <> None ->
   forall fuel b rest nThreads maxTokens temp topP seed,
   exists tl,
     r_trace E (nativeCompletion E fuel (Some h) (Some (b :: rest)) nThreads maxTokens
                  temp topP seed) =
     map (fun s => Call_memory_seq_rm s 0 (-1)) (map Z.of_nat (seq 0 16)) ++ tl) /\
  (vocab E h = None ->
   forall fuel cprompt nThreads maxTokens temp topP seed,
     nativeCompletion E fuel (Some h) cprompt nThreads maxTokens temp topP seed =
     mkRun E (Returned []) (Some h) [LOGE MsgInvalidHandle]).
Proof.
  unfold nativeLoadModel.
  destruct (match cpath with Some s => s | None => [] end) as [|b0 path]; [discriminate|].
  destruct (llama_model_load_from_file E (b0 :: path)) as [mdl|]; [|discriminate].
  destruct (llama_init_from_model E mdl (load_context_params E jNCtx)) as [c|];
    [|discriminate].
  cbn [fst]. intros Hh. injection Hh as <-.
  split; [reflexivity|]. split.
  - cbn [vocab]. intros Hv fuel b rest nThreads maxTokens temp topP seed.
    destruct (llama_model_get_vocab E mdl) as [v|] eqn:Hvoc; [|contradiction].
    destruct (completion_clears_first E fuel v (wrap_int (cp_n_ctx (load_context_params E
                jNCtx))) (b :: rest) nThreads maxTokens temp topP seed) as (k & Hk).
    exists (snd (k (cleared E c))).
    unfold nativeCompletion. cbn [ctx model vocab n_ctx]. rewrite Hk, finish_trace.
    reflexivity.
  - cbn [vocab]. intros Hv fuel cprompt nThreads maxTokens temp topP seed.
    unfold nativeCompletion. cbn [ctx model vocab n_ctx]. rewrite Hv. reflexivity.
Qed.

(** The load on the engine that gives no vocabulary: a handle comes back,
    and a call on it is rejected. *)
Lemma loaded_handle_can_be_used_and_freed_witness :
  exists h,
    fst (nativeLoadModel (Faulty.engine true true false true true) (Some Toy.path) 256) =
      Some h /\
    r_trace _ (nativeCompletion (Faulty.engine true true false true true) 10 (Some h)
                 (Some Toy.prompt_c) 0 8 f_zero f_zero (-1)) = [LOGE MsgInvalidHandle].
Proof.
  eexists. split; [reflexivity|].
  destruct (loaded_handle_can_be_used_and_freed (Faulty.engine true true false true true)
              (Some Toy.path) 256 _ eq_refl) as (_ & _ & Hbad).
  rewrite (Hbad eq_refl). reflexivity.
Defined.

(** ** Two calls in a row *)

Lemma nativeCompletion_handle (E : Engine) (fuel : nat) (h : LlamaHandle E)
    (cprompt : option std_string) (nThreads maxTokens : Z) (temp topP : jfloat) (seed : Z) :
  r_handle E (nativeCompletion E fuel (Some h) cprompt nThreads maxTokens temp topP seed) =
    Some h \/
  exists c', r_handle E (nativeCompletion E fuel (Some h) cprompt nThreads maxTokens
                           temp topP seed) = Some (with_ctx E h c').
Proof.
  destruct (nativeCompletion_cases E (Some h) cprompt)
    as [(ev & Hlog & Hr)|(h0 & c0 & m0 & v0 & b & rest & Hh & Hc0 & Hm0 & Hv0 & Hp & Hr)];
    rewrite Hr.
  - left. reflexivity.
  - right. injection Hh as <-. rewrite finish_handle. eexists. reflexivity.
Qed.

(** X15. A call does not depend on the calls made before it on the same
    handle, as far as the engine's removal of the sixteen sequences
    erases them: if the context a first call leaves clears to the same
    state as the context it started from, a second call with a non-empty
    prompt on the handle the first call leaves returns the same text,
    with the same trace and the same final context, as the same call made
    on the original handle. *)
Theorem second_call_is_independent_of_the_first (E : Engine) (fuel1 fuel2 : nat)
    (h : LlamaHandle E) (c : llama_context E) (m : llama_model E) (v : llama_vocab E)
    (cprompt1 : option std_string) (nThreads1 maxTokens1 : Z) (temp1 topP1 : jfloat)
    (seed1 : Z) (b : byte) (rest : std_string) (nThreads2 maxTokens2 : Z)
    (temp2 topP2 : jfloat) (seed2 : Z) :
  ctx E h = Some c -> model E h = Some m -> vocab E h = Some v ->
  let first := nativeCompletion E fuel1 (Some h) cprompt1 nThreads1 maxTokens1
                 temp1 topP1 seed1 in
  (forall h1 c1, r_handle E first = Some h1 -> ctx E h1 = Some c1 ->
                 cleared E c1 = cleared E c) ->
  nativeCompletion E fuel2 (r_handle E first) (Some (b :: rest)) nThreads2 maxTokens2
    temp2 topP2 seed2 =
  nativeCompletion E fuel2 (Some h) (Some (b :: rest)) nThreads2 maxTokens2
    temp2 topP2 seed2.
Proof.
  intros Hc Hm Hv first Hclear. subst first.
  destruct (nativeCompletion_handle E fuel1 h cprompt1 nThreads1 maxTokens1 temp1 topP1
              seed1) as [Hh|(c1 & Hh)].
  - rewrite Hh. reflexivity.
  - rewrite Hh in Hclear |- *.
    specialize (Hclear (with_ctx E h c1) c1 eq_refl eq_refl).
    destruct (completion_clears_first E fuel2 v (n_ctx E h) (b :: rest) nThreads2
                maxTokens2 temp2 topP2 seed2) as (k & Hk).
    unfold nativeCompletion. cbn [ctx model vocab n_ctx with_ctx].
    rewrite Hc, Hm, Hv, !Hk, Hclear.
    destruct (k (cleared E c)) as [[[s|s|] c2] t2]; reflexivity.
Qed.

(** Two runs on the small engine: "z" after "c" is "z" alone. *)
Lemma second_call_is_independent_of_the_first_witness :
  nativeCompletion Toy.engine 10
    (r_handle Toy.engine
       (nativeCompletion Toy.engine 10 (Some (Toy.handle 256)) (Some Toy.prompt_c)
          0 8 f_zero f_zero (-1)))
    (Some Toy.prompt_z) 0 8 f_zero f_zero (-1) =
  nativeCompletion Toy.engine 10 (Some (Toy.handle 256)) (Some Toy.prompt_z)
    0 8 f_zero f_zero (-1).
Proof.
  apply (second_call_is_independent_of_the_first Toy.engine 10 10 (Toy.handle 256) _ tt tt
           (Some Toy.prompt_c) 0 8 f_zero f_zero (-1) "z"%byte [] 0 8 f_zero f_zero (-1)
           eq_refl eq_refl eq_refl).
  intros h1 c1 Hh1 Hc1. injection Hh1 as <-. injection Hc1 as <-. reflexivity.
Defined.

(** ** The token buffer *)

(** X16. The token buffer always has the size the first tokenizer pass
    announced, a positive [int]; the count the second pass returns is
    used for its sign only.  When the second pass wrote no more tokens
    than announced, the buffer holds them followed by token 0 in every
    slot it did not write, and the prompt loop decodes those slots like
    the others: with a batch capacity of at least 1, indices that fit an
    [int] and fuel for the prompt, the first decodes of the call are the
    consecutive chunks of the written tokens followed by the zeros, in
    order, all of them or up to the first that fails. *)
Theorem token_buffer_has_the_announced_size (E : Engine) (fuel : nat) (h : LlamaHandle E)
    (c : llama_context E) (m : llama_model E) (v : llama_vocab E)
    (b : byte) (rest : std_string) (nThreads maxTokens : Z) (temp topP : jfloat)
    (seed : Z) (toks : list llama_token) :
  ctx E h = Some c -> model E h = Some m -> vocab E h = Some v ->
  prompt_tokens E v (b :: rest) = Some toks ->
  let prompt := b :: rest in
  let n := announced_tokens E v prompt in
  let written :=
    snd (llama_tokenize E v prompt (wrap_int (Z.of_nat (length prompt))) true n true true) in
  let B := llama_n_batch E (prepared E c nThreads) in
  let r := nativeCompletion E fuel (Some h) (Some prompt) nThreads maxTokens temp topP seed in
  Z.of_nat (length toks) = n /\ 0 < n <= INT_MAX /\
  ((length written <= length toks)%nat ->
   let buf := written ++ repeat 0 (length toks - length written) in
   toks = buf /\
   (1 <= B -> n + B <= INT_MAX -> (length toks <= fuel)%nat ->
    let chs := chunks (Z.to_nat B) buf in
    concat chs = buf /\
    exists pre,
      decodes pre = [] /\
      ((exists tl,
           r_trace E r =
           pre ++ map (fun ch => Call_decode ch 0) chs ++ Call_chain_init :: tl) \/
       (exists j ch st,
           nth_error chs j = Some ch /\ st <> 0 /\
           r_trace E r =
           pre ++ map (fun ch => Call_decode ch 0) (firstn j chs) ++
           [Call_decode ch st; LOGE MsgPromptDecodeFailed])))).
Proof.
  intros Hc Hm Hv Htok prompt n written B r.
  pose proof (prompt_tokens_count E v prompt toks Htok) as Hn. fold n in Hn.
  pose proof (prompt_tokens_length E v prompt toks Htok) as Hlen.
  split; [now rewrite Hn|]. split; [rewrite Hn; exact Hlen|].
  intros Hw buf.
  assert (Hbuf : toks = buf).
  { pose proof Htok as Htok'.
    unfold prompt_tokens in Htok'. fold prompt in Htok'.
    fold (announced_tokens E v prompt) in Htok'. fold n in Htok'.
    destruct (n <=? 0); [discriminate|].
    destruct (fst _ <? 0); [discriminate|].
    fold written in Htok'. injection Htok' as Htok'.
    assert (Hz : Z.to_nat n = length toks) by lia.
    rewrite <- Htok' at 1. unfold fill_buffer. rewrite Hz.
    apply firstn_all2. unfold buf. rewrite length_app, repeat_length. lia. }
  split; [exact Hbuf|].
  intros HB Hfit Hfuel chs. subst chs. rewrite <- Hbuf.
  split; [apply chunks_fuel_concat; lia|].
  assert (Hr : r = finish E h
      (completion E fuel v (n_ctx E h) prompt nThreads maxTokens temp topP seed c)).
  { unfold r, nativeCompletion, prompt. rewrite Hc, Hm, Hv. reflexivity. }
  rewrite Hr, finish_trace.
  pose proof (completion_chunks E fuel v (n_ctx E h) prompt nThreads maxTokens temp topP
                seed c toks Htok HB ltac:(fold B; lia) Hfuel) as Hch.
  cbv zeta in Hch. fold B in Hch.
  destruct Hch as (pre & Hpre & [(tl & Htr)|(j & ch & st & Hj & Hst & Htr & _)]).
  - exists pre. split; [exact Hpre|]. left. exists tl. exact Htr.
  - exists pre. split; [exact Hpre|]. right. exists j, ch, st. auto.
Qed.

(** A tokenizer that announces three tokens and writes two: the buffer
    for the prompt "c" is 1, 99, 0, and the first decode of the call is
    the batch of these three tokens. *)
Lemma token_buffer_has_the_announced_size_witness :
  let E := ShortWrite.engine in
  let r := nativeCompletion E 10 (Some ShortWrite.handle) (Some Toy.prompt_c)
             0 8 f_zero f_zero (-1) in
  announced_tokens E tt Toy.prompt_c = 3 /\
  snd (llama_tokenize E tt Toy.prompt_c 1 true 3 true true) = [1; 99] /\
  prompt_tokens E tt Toy.prompt_c = Some [1; 99; 0] /\
  exists pre tl,
    decodes pre = [] /\
    r_trace E r = pre ++ [Call_decode [1; 99; 0] 0] ++ Call_chain_init :: tl.
Proof.
  cbv zeta.
  pose proof (token_buffer_has_the_announced_size ShortWrite.engine 10 ShortWrite.handle
                _ tt tt "c"%byte [] 0 8 f_zero f_zero (-1) [1; 99; 0]
                eq_refl eq_refl eq_refl eq_refl) as H.
  cbv zeta in H. destruct H as (_ & _ & H).
  destruct (H ltac:(cbn; lia)) as (_ & Hdec).
  destruct (Hdec ltac:(cbn; lia) ltac:(unfold INT_MAX; cbn; lia) ltac:(cbn; lia))
    as (_ & pre & Hpre & [(tl & Htr)|(j & ch & st & _ & _ & Htr)]).
  - split; [reflexivity|]. split; [reflexivity|]. split; [reflexivity|].
    exists pre, tl. split; [exact Hpre | exact Htr].
  - exfalso. apply (f_equal errors) in Htr. rewrite !errors_app in Htr.
    change (errors [Call_decode ch st; LOGE MsgPromptDecodeFailed])
      with [MsgPromptDecodeFailed] in Htr.
    match type of Htr with
    | ?l = _ => let l' := eval vm_compute in l in change l with l' in Htr
    end.
    symmetry in Htr. apply app_eq_nil in Htr. destruct Htr as (_ & Htr).
    apply app_eq_nil in Htr. destruct Htr as (_ & Htr). discriminate Htr.
Defined.

(** The run on the small engine, whose batch capacity is 256, with fuel
    for the two tokens of "c". *)
Lemma nativeCompletion_returns_witness :
  exists s,
    r_out Toy.engine
      (nativeCompletion Toy.engine 2 (Some (Toy.handle 256)) (Some Toy.prompt_c)
         0 8 f_zero f_zero (-1)) = Returned s.
Proof.
  apply (nativeCompletion_returns Toy.engine 2 (Some (Toy.handle 256)) (Some Toy.prompt_c)
           0 8 f_zero f_zero (-1)).
  intros h c v prompt toks Hh Hc Hv Hp Htok.
  injection Hh as <-. injection Hc as <-. injection Hp as <-.
  vm_compute in Htok. injection Htok as <-.
  unfold INT_MAX. cbn. lia.
Defined.
